(** * PSD_deploy: probability density of DAS power spectra

    A shallow embedding of [src/PSD_deploy.py]: the metadata adapter
    [extract_metadata], the probability density builder [ppsd], the weighted
    statistics reducer [psd_stats] and the module-level assembly and
    per-bin orchestration.

    Numbers.  The program computes on numpy [float64] arrays.  They are
    modelled by [npfloat]: a real number, or one of the IEEE special values
    [+inf], [-inf] and [nan], with the IEEE rules for the special values
    ([0/0 = nan], [inf - inf = nan], every comparison with [nan] false).
    Finite arithmetic is exact real arithmetic: rounding, overflow and the
    sign of zero are abstracted.  [np.log10] and [10 ** x] are the real
    functions.

    Libraries.  numpy and scipy are not part of the repository.  The numpy
    functions the program calls are modelled from their documented
    behaviour (including the exceptions they raise); scipy's [detrend] and
    [periodogram] and the repository's missing [read_decimate] are
    parameters of the sections that use them. *)

From Stdlib Require Import Reals Lra Lia.
From stdpp Require Import base decidable option list gmap strings sorting.

Set Default Proof Using "Type".
Set Warnings "-abstract-large-number".

(** ** numpy's float64, idealised *)

Module NpFloat.

Inductive npfloat : Type :=
  | Num (r : R)
  | PInf
  | NInf
  | NaN.

#[global] Instance R_eq_dec : EqDecision R := Req_dec_T.
#[global] Instance Rlt_decision (a b : R) : Decision (a < b)%R := Rlt_dec a b.
#[global] Instance Rle_decision (a b : R) : Decision (a <= b)%R := Rle_dec a b.

#[global] Instance npfloat_eq_dec : EqDecision npfloat.
Proof. solve_decision. Defined.

#[global] Instance npfloat_inhabited : Inhabited npfloat := populate NaN.

Definition of_nat (n : nat) : npfloat := Num (INR n).

Definition isnan (x : npfloat) : bool :=
  match x with NaN => true | _ => false end.

Definition isfinite (x : npfloat) : bool :=
  match x with Num _ => true | _ => false end.

Definition fneg (x : npfloat) : npfloat :=
  match x with
  | Num r => Num (- r)
  | PInf => NInf
  | NInf => PInf
  | NaN => NaN
  end.

Definition fadd (x y : npfloat) : npfloat :=
  match x, y with
  | NaN, _ | _, NaN => NaN
  | Num a, Num b => Num (a + b)
  | PInf, NInf | NInf, PInf => NaN
  | PInf, _ | _, PInf => PInf
  | NInf, _ | _, NInf => NInf
  end.

Definition fsub (x y : npfloat) : npfloat := fadd x (fneg y).

(** [inf * r] for a finite [r]: the sign of [r] decides, [inf * 0 = nan]. *)
Definition inf_times (pos : bool) (r : R) : npfloat :=
  if decide (r = 0%R) then NaN
  else if decide (0 < r)%R then (if pos then PInf else NInf)
  else (if pos then NInf else PInf).

Definition fmul (x y : npfloat) : npfloat :=
  match x, y with
  | NaN, _ | _, NaN => NaN
  | Num a, Num b => Num (a * b)
  | Num a, PInf | PInf, Num a => inf_times true a
  | Num a, NInf | NInf, Num a => inf_times false a
  | PInf, PInf | NInf, NInf => PInf
  | PInf, NInf | NInf, PInf => NInf
  end.

(** Division with [np.seterr(divide='ignore', invalid='ignore')]: a zero
    divisor gives [nan] for [0/0] and an infinity otherwise. *)
Definition fdiv (x y : npfloat) : npfloat :=
  match x, y with
  | NaN, _ | _, NaN => NaN
  | Num a, Num b =>
      if decide (b = 0%R) then
        if decide (a = 0%R) then NaN
        else if decide (0 < a)%R then PInf else NInf
      else Num (a / b)
  | Num _, (PInf | NInf) => Num 0
  | PInf, Num b => if decide (0 <= b)%R then PInf else NInf
  | NInf, Num b => if decide (0 <= b)%R then NInf else PInf
  | (PInf | NInf), (PInf | NInf) => NaN
  end.

(** [x ** 2] *)
Definition fsquare (x : npfloat) : npfloat := fmul x x.

(** IEEE comparisons: false as soon as one side is [nan]. *)
Definition flt (x y : npfloat) : bool :=
  match x, y with
  | NaN, _ | _, NaN => false
  | Num a, Num b => bool_decide (a < b)%R
  | NInf, (Num _ | PInf) => true
  | Num _, PInf => true
  | _, _ => false
  end.

Definition feq (x y : npfloat) : bool :=
  match x, y with
  | NaN, _ | _, NaN => false
  | Num a, Num b => bool_decide (a = b)
  | PInf, PInf | NInf, NInf => true
  | _, _ => false
  end.

Definition fle (x y : npfloat) : bool := flt x y || feq x y.
Definition fgt (x y : npfloat) : bool := flt y x.

(** The order numpy sorts and searches with: the IEEE order on the other
    values, and [nan] after every one of them ([a <= nan] for every [a]). *)
Definition sort_le (x y : npfloat) : bool :=
  match x, y with
  | _, NaN => true
  | NaN, _ => false
  | _, _ => fle x y
  end.

(** [np.log10] (warnings ignored): [-inf] at [0], [nan] below. *)
Definition np_log10 (x : npfloat) : npfloat :=
  match x with
  | Num r =>
      if decide (0 < r)%R then Num (Rlog 10 r)
      else if decide (r = 0%R) then NInf else NaN
  | PInf => PInf
  | NInf => NaN
  | NaN => NaN
  end.

(** [10 ** y], [np.power(10.0, y)] *)
Definition np_power10 (y : npfloat) : npfloat :=
  match y with
  | Num r => Num (Rpower 10 r)
  | PInf => PInf
  | NInf => Num 0
  | NaN => NaN
  end.

End NpFloat.
Export NpFloat.

(** ** Python exceptions and fallible computations *)

Inductive exn : Type :=
  | ValueError (msg : string)
  | TypeError (msg : string)
  | ZeroDivisionError (msg : string)
  | IndexError (msg : string)
  | KeyError (key : string)
  | NameError (name : string)
  | FileNotFoundError (path : string).

Inductive result (A : Type) : Type :=
  | Ok (a : A)
  | Raise (e : exn).
Arguments Ok {A} a.
Arguments Raise {A} e.

#[global] Instance result_ret : MRet result := fun A a => Ok a.
#[global] Instance result_bind : MBind result := fun A B f m =>
  match m with
  | Ok a => f a
  | Raise e => Raise e
  end.

Definition raises {A} (m : result A) : bool :=
  match m with Ok _ => false | Raise _ => true end.

(** A [for] loop whose body may raise: the first exception ends it. *)
Fixpoint for_each {A S} (body : S -> A -> result S) (l : list A) (s : S) : result S :=
  match l with
  | [] => Ok s
  | a :: l' => s' ← body s a; for_each body l' s'
  end.

(** ** The numpy functions the program calls *)

Module Np.

(** [np.sum] adds pairwise; with exact reals the order of the additions does
    not change the sum, so a fold stands for it. *)
Definition np_sum (a : list npfloat) : npfloat := foldr fadd (Num 0) a.

(** [np.nansum]: [nan] counts as zero. *)
Definition np_nansum (a : list npfloat) : npfloat :=
  np_sum (map (fun x => if isnan x then Num 0 else x) a).

(** [np.mean] of a row; the mean of an empty row is [0/0]. *)
Definition np_mean (a : list npfloat) : npfloat :=
  fdiv (np_sum a) (of_nat (length a)).

(** [np.fmin] and [np.fmax] skip a [nan] operand. *)
Definition np_fmin (x y : npfloat) : npfloat :=
  match x, y with
  | NaN, _ => y
  | _, NaN => x
  | _, _ => if flt y x then y else x
  end.

Definition np_fmax (x y : npfloat) : npfloat :=
  match x, y with
  | NaN, _ => y
  | _, NaN => x
  | _, _ => if flt x y then y else x
  end.

(** [np.nanmin] and [np.nanmax] reduce with [fmin] and [fmax]: [nan] for
    an array of [nan]s only, [ValueError] for an empty array. *)
Definition np_nanmin (a : list npfloat) : result npfloat :=
  match a with
  | [] => Raise (ValueError "zero-size array to reduction operation fmin which has no identity")
  | x :: a' => Ok (foldl np_fmin x a')
  end.

Definition np_nanmax (a : list npfloat) : result npfloat :=
  match a with
  | [] => Raise (ValueError "zero-size array to reduction operation fmax which has no identity")
  | x :: a' => Ok (foldl np_fmax x a')
  end.

(** [np.linspace(start, stop, num)] with its endpoint: [arange(num)] times
    the step (or, for a zero step, divided by [num - 1] and times the
    span), plus [start]; the last entry is then overwritten by [stop]. *)
Definition np_linspace (start stop : npfloat) (num : nat) : list npfloat :=
  let div := num - 1 in
  let delta := fsub stop start in
  let y := map of_nat (seq 0 num) in
  let y :=
    if decide (0 < div) then
      let step := fdiv delta (of_nat div) in
      if feq step (Num 0)
      then map (fun v => fmul (fdiv v (of_nat div)) delta) y
      else map (fun v => fmul v step) y
    else map (fun v => fmul v delta) y in
  let y := map (fun v => fadd v start) y in
  if decide (1 < num) then <[num - 1 := stop]> y else y.

(** [np.logspace(start, stop, num)], base 10 *)
Definition np_logspace (start stop : npfloat) (num : nat) : list npfloat :=
  map np_power10 (np_linspace start stop num).

(** [np.any(edges[:-1] > edges[1:])] *)
Fixpoint any_decreasing (edges : list npfloat) : bool :=
  match edges with
  | a :: (b :: _) as rest => fgt a b || any_decreasing rest
  | _ => false
  end.

(** [np.searchsorted(a, v, side='right')] on a sorted array: the number of
    entries that are at most [v], in the order that puts [nan] last.  (On
    an array that is not sorted numpy's answer depends on its bisection;
    the model keeps the count.) *)
Definition np_searchsorted_right (a : list npfloat) (v : npfloat) : nat :=
  length (filter (fun e => sort_le e v = true) a).

(** The bin number [histogramdd] gives a sample along one axis: bin [0] and
    bin [length edges] are the outliers; a sample on the last edge moves one
    bin to the left. *)
Definition bin_number (edges : list npfloat) (v : npfloat) : nat :=
  let k := np_searchsorted_right edges v in
  if feq v (List.last edges NaN) then k - 1 else k.

Definition count_in_bin (idx : list (nat * nat)) (i j : nat) : nat :=
  length (filter (fun p => p = (S i, S j)) idx).

(** The counts of the samples per bin, outliers dropped, as floats. *)
Definition bin_counts (x y xedges yedges : list npfloat) : list (list npfloat) :=
  let idx := zip (map (bin_number xedges) x) (map (bin_number yedges) y) in
  map (fun i => map (fun j => of_nat (count_in_bin idx i j))
                    (seq 0 (length yedges - 1)))
      (seq 0 (length xedges - 1)).

(** [np.histogram2d(x, y, bins=(xedges, yedges))]: the counts and the two
    edge arrays. *)
Definition np_histogram2d (x y xedges yedges : list npfloat)
  : result (list (list npfloat) * list npfloat * list npfloat) :=
  if decide (length x ≠ length y) then
    Raise (ValueError "x and y must have the same length.")
  else if any_decreasing xedges then
    Raise (ValueError "`bins[0]` must be monotonically increasing when an array")
  else if any_decreasing yedges then
    Raise (ValueError "`bins[1]` must be monotonically increasing when an array")
  else Ok (bin_counts x y xedges yedges, xedges, yedges).

(** [np.average(a, weights=w)] for two 1-d arrays. *)
Definition np_average (a w : list npfloat) : result npfloat :=
  if decide (length a ≠ length w) then
    Raise (TypeError "Axis must be specified when shapes of a and weights differ.")
  else
    let scl := np_sum w in
    if feq scl (Num 0) then
      Raise (ZeroDivisionError "Weights sum to zero, can't be normalized")
    else Ok (fdiv (np_sum (zip_with fmul a w)) scl).

End Np.
Export Np.

(** ** Arrays shared between caller and callee

    A numpy array lives in a heap of 2-d arrays; a Python name holds a
    reference.  A basic slice [a[start:stop, :]] is a view: it shares the
    rows of its base array, so an in-place update through the view is an
    update of the base. *)

Abbreviation matrix := (list (list npfloat)).

Record ndview : Type := View {
  view_base : nat;     (* the address of the base array *)
  view_start : nat;    (* first row of the slice *)
  view_stop : nat      (* one past its last row *)
}.

Abbreviation heap := (gmap nat matrix).

(** The whole array at an address, seen as a view. *)
Definition whole (addr : nat) (h : heap) : ndview :=
  View addr 0 (length (default [] (h !! addr))).

(** [a[start:stop, :]] for non-negative bounds: they are clipped to the
    number of rows. *)
Definition slice_rows (addr start stop : nat) (h : heap) : ndview :=
  let n := length (default [] (h !! addr)) in
  View addr (start `min` n) ((start `max` stop) `min` n).

Definition rows_of (v : ndview) (m : matrix) : matrix :=
  take (view_stop v - view_start v) (drop (view_start v) m).

Definition read_view (v : ndview) (h : heap) : option matrix :=
  rows_of v <$> h !! view_base v.

(** Store [rows] through the view (as many rows as the view has). *)
Definition write_view (v : ndview) (rows : matrix) (h : heap) : heap :=
  alter (fun m => take (view_start v) m ++ rows ++ drop (view_start v + length rows) m)
        (view_base v) h.

(** ** The PSD statistics engine *)

(** [data - np.mean(data, axis=1, keepdims=True)] *)
Definition demean (data : matrix) : matrix :=
  map (fun row => map (fun x => fsub x (np_mean row)) row) data.

(** [(e[1:] + e[:-1]) / 2] *)
Definition bin_centers (e : list npfloat) : list npfloat :=
  zip_with (fun a b => fdiv (fadd a b) (Num 2)) (tail e) (removelast e).

(** [H / np.nansum(H, axis=1, keepdims=True)] *)
Definition normalize_rows (H : matrix) : matrix :=
  map (fun row => map (fun c => fdiv c (np_nansum row)) row) H.

(** The bin edges of [ppsd] (lines 102-103):
    [xbins = np.logspace(np.log10(fmin), np.log10(fmax), 100)] and
    [ybins = np.logspace(np.log10(np.nanmin(spec)), np.log10(np.nanmax(spec)), 200)]. *)
Definition xbins (fmin fmax : npfloat) : list npfloat :=
  np_logspace (np_log10 fmin) (np_log10 fmax) 100.

Definition ybins (spec : list npfloat) : result (list npfloat) :=
  lo ← np_nanmin spec;
  hi ← np_nanmax spec;
  Ok (np_logspace (np_log10 lo) (np_log10 hi) 200).

(** The histogram counts of [ppsd] (line 105), before normalisation. *)
Definition pdf_counts (freq spec : list npfloat) (fmin fmax : npfloat)
  : result (matrix * list npfloat * list npfloat) :=
  let xb := xbins fmin fmax in
  yb ← ybins spec;
  np_histogram2d freq spec xb yb.

(** The block [### Generate PDF] of [ppsd] (lines 101-108), on the
    flattened frequencies and powers: the probability density builder. *)
Definition generate_pdf (freq spec : list npfloat) (fmin fmax : npfloat)
  : result (matrix * list npfloat * list npfloat) :=
  '(H, xe, ye) ← pdf_counts freq spec fmin fmax;
  Ok (normalize_rows H, bin_centers xe, bin_centers ye).

Section Scipy.

(** [scipy.signal.detrend(data, axis=1)]: returns a new array. *)
Variable sgn_detrend : matrix -> result matrix.
(** [scipy.signal.periodogram(data, fs, window='hamming', axis=-1)]: the
    frequencies and one row of powers per channel. *)
Variable sgn_periodogram : matrix -> npfloat -> result (list npfloat * matrix).

(** Lines 84-96 of [ppsd]: the in-place removal of the mean, then the
    periodogram of the detrended copy.  The heap that is returned is the
    one the caller sees afterwards, also when an exception is raised. *)
Definition periodogram_pairs (data : ndview) (fs : npfloat) (h : heap)
  : result (list npfloat * list npfloat) * heap :=
  match read_view data h with
  | None => (Raise (NameError "data"), h)
  | Some d =>
      let nx := length d in
      (* data -= np.mean(data, axis=1, keepdims=True) *)
      let d := demean d in
      let h := write_view data d h in
      (* data = sgn.detrend(data, axis=1): the local name is rebound *)
      (d ← sgn_detrend d;
       '(freq, spec) ← sgn_periodogram d fs;
       (* freq = np.tile(freq, (nx, 1)).flatten() *)
       let freq := concat (replicate nx freq) in
       Ok (freq, concat spec), h)
  end.

Definition ppsd (data : ndview) (fs fmin fmax : npfloat) (h : heap)
  : result (matrix * list npfloat * list npfloat) * heap :=
  let '(r, h) := periodogram_pairs data fs h in
  ('(freq, spec) ← r; generate_pdf freq spec fmin fmax, h).

End Scipy.

(** [H[ix, :]] *)
Definition row_at (H : matrix) (ix : nat) : result (list npfloat) :=
  match H !! ix with
  | Some row => Ok row
  | None => Raise (IndexError "index is out of bounds for axis 0")
  end.

(** The body of the loop of [psd_stats], on [(mean, variance)]. *)
Definition psd_stats_body (H : matrix) (ym : list npfloat)
    (mv : list npfloat * list npfloat) (ix : nat)
  : result (list npfloat * list npfloat) :=
  let '(mean, variance) := mv in
  w ← row_at H ix;
  m ← np_average ym w;
  let mean := <[ix := m]> mean in
  w ← row_at H ix;
  v ← np_average (map (fun y => fsquare (fsub y (mean !!! ix))) ym) w;
  Ok (mean, <[ix := v]> variance).

Definition psd_stats (H : matrix) (xm ym : list npfloat)
  : result (list npfloat * list npfloat * list npfloat) :=
  let ym := map np_log10 ym in
  let mean := replicate (length xm) (Num 0) in
  let variance := mean in
  '(mean, variance) ← for_each (psd_stats_body H ym) (seq 0 (length xm)) (mean, variance);
  Ok (xm, map np_power10 mean, variance).

(** ** The metadata adapter *)

(** What [h5py] hands back for a dataset or an attribute. *)
Inductive h5value : Type :=
  | H5Float (x : npfloat)
  | H5Int (n : nat)
  | H5Str (s : string)
  | H5Array (a : list npfloat).

(** An HDF5 file: datasets by path from the root, attributes by the path
    of their group and their name. *)
Record h5py_file : Type := H5File {
  h5_datasets : gmap string h5value;
  h5_attrs : gmap (string * string) h5value
}.

Abbreviation filesystem := (gmap string h5py_file).

(** [fp[path]], for a dataset *)
Definition h5_dataset (fp : h5py_file) (path : string) : result h5value :=
  match h5_datasets fp !! path with
  | Some v => Ok v
  | None => Raise (KeyError path)
  end.

(** [fp[group].attrs[name]] *)
Definition h5_attr (fp : h5py_file) (group name : string) : result h5value :=
  match h5_attrs fp !! (group, name) with
  | Some v => Ok v
  | None => Raise (KeyError name)
  end.

Definition as_float (v : h5value) : result npfloat :=
  match v with
  | H5Float x => Ok x
  | H5Int n => Ok (of_nat n)
  | _ => Raise (TypeError "unsupported operand type(s)")
  end.

Definition as_array (v : h5value) : result (list npfloat) :=
  match v with
  | H5Array a => Ok a
  | _ => Raise (TypeError "object is not subscriptable")
  end.

(** [a[0]] *)
Definition first_entry (a : list npfloat) : result npfloat :=
  match a with
  | x :: _ => Ok x
  | [] => Raise (IndexError "index 0 is out of bounds for axis 0 with size 0")
  end.

(** The tuple [gl, t0, dt, fs, dx, un, ns, nx]. *)
Record metadata : Type := Metadata {
  gl : h5value;
  t0 : h5value;
  dt : h5value;
  fs : h5value;
  dx : h5value;
  un : h5value;
  ns : h5value;
  nx : h5value
}.

(** The files a call opened, in order. *)
Inductive io_event : Type :=
  | Opened (path : string).

(** [with h5py.File(h5file, 'r') as fp: body] *)
Definition with_h5py_file {A} (disk : filesystem) (path : string)
    (body : h5py_file -> result A) : result A * list io_event :=
  match disk !! path with
  | Some fp => (body fp, [Opened path])
  | None => (Raise (FileNotFoundError path), [Opened path])
  end.

Definition extract_metadata (disk : filesystem) (h5file : string) (machine_name : string)
  : result metadata * list io_event :=
  if decide (machine_name = "optodas") then
    with_h5py_file disk h5file (fun fp =>
      gl ← h5_dataset fp "header/gaugeLength";
      t0 ← h5_dataset fp "header/time";
      dt ← h5_dataset fp "header/dt";
      dt' ← as_float dt;
      let fs := fdiv (Num 1) dt' in
      dx ← h5_dataset fp "header/dx";
      dx' ← as_float dx;
      let dx := fmul dx' (Num 10) in
      un ← h5_dataset fp "header/unit";
      ns ← h5_dataset fp "header/dimensionRanges/dimension0/size";
      nx ← h5_dataset fp "header/dimensionRanges/dimension1/size";
      nx ← as_array nx;
      nx ← first_entry nx;
      Ok (Metadata gl t0 dt (H5Float fs) (H5Float dx) un ns (H5Float nx)))
  else if decide (machine_name = "onyx") then
    with_h5py_file disk h5file (fun fp =>
      gl ← h5_attr fp "Acquisition" "GaugeLength";
      t ← h5_dataset fp "Acquisition/Raw[0]/RawDataTime";
      t ← as_array t;
      t0 ← first_entry t;
      let t0 := fdiv t0 (Num 1e6) in
      fs ← h5_attr fp "Acquisition/Raw[0]" "OutputDataRate";
      fs' ← as_float fs;
      let dt := fdiv (Num 1) fs' in
      dx ← h5_attr fp "Acquisition" "SpatialSamplingInterval";
      un ← h5_attr fp "Acquisition/Raw[0]" "RawDataUnit";
      t ← h5_dataset fp "Acquisition/Raw[0]/RawDataTime";
      t ← as_array t;
      let ns := length t in
      nx ← h5_attr fp "Acquisition/Raw[0]" "NumberOfLoci";
      Ok (Metadata gl (H5Float t0) (H5Float dt) fs dx un (H5Int ns) nx))
  else
    (Raise (ValueError "Machine name not recognized"), []).

(** ** The module-level assembly (lines 138-152) *)

(** The order [np.argsort] puts file names in: by their characters. *)
Definition string_le (s1 s2 : string) : Prop :=
  Stdlib.Strings.String.leb s1 s2 = true.

#[global] Instance string_le_dec : RelDecision string_le.
Proof. intros s1 s2. unfold string_le. apply _. Defined.

(** [file_list[np.argsort(file_list)]] *)
Definition sort_file_list (file_list : list string) : list string :=
  merge_sort string_le file_list.

(** [pool.map(f, tasks)], after [multiprocessing.pool.MapResult].  The
    workers complete the tasks in an order of their own, [completion], a list
    of task numbers.  A result that arrives is stored in the slot of its
    task; of the exceptions only the first to arrive is kept; and [map]
    returns once no task is left: the slots in task order, or that exception.
    [None] stands for a [map] that has not returned.  (The pool hands the
    tasks out in chunks; a chunk is stored like a task, at its own place.) *)
Record map_result (B : Type) : Type := MapResult {
  mr_value : list (option B);
  mr_error : option exn;
  mr_number_left : nat
}.
Arguments MapResult {B} _ _ _.
Arguments mr_value {B} _.
Arguments mr_error {B} _.
Arguments mr_number_left {B} _.

Definition pool_fill {A B} (f : A -> result B) (tasks : list A)
    (st : map_result B) (i : nat) : map_result B :=
  match tasks !! i with
  | None => st
  | Some x =>
      let left := mr_number_left st - 1 in
      match f x with
      | Ok b => MapResult (<[i := Some b]> (mr_value st)) (mr_error st) left
      | Raise e => MapResult (mr_value st) (from_option Some (Some e) (mr_error st)) left
      end
  end.

Definition pool_map {A B} (f : A -> result B) (tasks : list A) (completion : list nat)
  : option (result (list B)) :=
  let n := length tasks in
  let st := foldl (pool_fill f tasks) (MapResult (replicate n None) None n) completion in
  if decide (mr_number_left st = 0) then
    match mr_error st with
    | Some e => Some (Raise e)
    | None => Ok <$> mapM (M:=option) (fun slot => slot) (mr_value st)
    end
  else None.

(** [np.concatenate(arrays, axis=1)] of 2-d arrays *)
Definition np_concatenate_axis1 (arrays : list matrix) : result matrix :=
  match arrays with
  | [] => Raise (ValueError "need at least one array to concatenate")
  | a :: rest =>
      if decide (Forall (fun b => length b = length a) rest) then
        Ok (foldl (zip_with app) a rest)
      else
        Raise (ValueError "all the input array dimensions except for the concatenation axis must match exactly")
  end.

Section Assembly.

(** [read_decimate] with its keyword arguments fixed ([partial_func]): the
    decimated channel-by-time array of one file.  Its definition is not in
    the source file. *)
Variable read_decimate : string -> result matrix.

Variable data_dir : string.
Variables start_file num_file : nat.

(** [file_path[start_file:start_file+num_file]] of the sorted listing *)
Definition files_to_read (listing : list string) : list string :=
  let file_list := sort_file_list listing in
  let file_path := map (fun i => data_dir +:+ i) file_list in
  take num_file (drop start_file file_path).

(** Lines 138-152: [full_time_data], for the listing [os.listdir] returned
    and the order in which the workers completed. *)
Definition assemble (listing : list string) (completion : list nat)
  : option (result matrix) :=
  full_time ← pool_map read_decimate (files_to_read listing) completion;
  Some (full_time ← full_time; np_concatenate_axis1 full_time).

End Assembly.

(** ** The loop over the channel bins (lines 159-176) *)

(** The parameters of the run (lines 121-135). *)
Module Config.

Definition machine_name : string := "optodas".
Definition num_proc : nat := 2.
Definition start_ch : nat := 0.
Definition end_ch : nat := 9000.
Definition start_file : nat := 10.
Definition num_file : nat := 360.
Definition dsamp_factor : nat := 1.
Definition channel_bin : nat := 200.
Definition half_bin : nat := channel_bin / 2.
Definition channel_interval : nat := 2000.
Definition amp_type : string := "strain_rate".

End Config.

(** [np.arange(start, stop, step)[::-1]] on naturals *)
Definition arange_reversed (start stop step : nat) : list nat :=
  reverse (map (fun k => start + k * step) (seq 0 ((stop - start + (step - 1)) / step))).

(** [ch_list = np.arange(half_bin+1, (end_ch-start_ch), channel_interval)[::-1]] *)
Definition ch_list : list nat :=
  arange_reversed (Config.half_bin + 1) (Config.end_ch - Config.start_ch)
                  Config.channel_interval.

(** [np.diff(trs, axis=1) * new_fs] *)
Definition diff_times (new_fs : npfloat) (trs : matrix) : matrix :=
  map (fun row => zip_with (fun a b => fmul (fsub b a) new_fs) row (tail row)) trs.

(** A new array on the heap. *)
Definition alloc (m : matrix) (h : heap) : nat * heap :=
  let addr := fresh (dom h) in (addr, <[addr := m]> h).

Section Orchestration.

Variable sgn_detrend : matrix -> result matrix.
Variable sgn_periodogram : matrix -> npfloat -> result (list npfloat * matrix).

Variable amp_type : string.
Variable new_fs : npfloat.
Variable half_bin : nat.

(** The body of the loop for one bin centre [chan]; [hour_data] is the
    address of the array of that name. *)
Definition process_bin (hour_data : nat) (chan : nat) (h : heap)
  : result (matrix * list npfloat * list npfloat * list npfloat * list npfloat) * heap :=
  (* trs = hour_data[chan-half_bin:chan+half_bin, :] *)
  let trs := slice_rows hour_data (chan - half_bin) (chan + half_bin) h in
  let '(trs, h) :=
    if decide (amp_type = "strain") then
      let '(addr, h) := alloc (diff_times new_fs (default [] (read_view trs h))) h in
      (whole addr h, h)
    else (trs, h) in
  let '(r, h) := ppsd sgn_detrend sgn_periodogram trs new_fs (Num 2e-4) (Num 1e2) h in
  ('(H, xm, ym) ← r;
   '(xm, mn, vr) ← psd_stats H xm ym;
   Ok (H, xm, ym, mn, vr), h).

(** The [for] loop over the bin centres (lines 169-176), the plotting left
    out: the statistics of the bins in the order of the loop.  An exception
    ends the loop; the heap is the one the passes so far have left. *)
Fixpoint psd_loop (hour_data : nat) (chans : list nat) (h : heap)
  : result (list (matrix * list npfloat * list npfloat * list npfloat * list npfloat))
    * heap :=
  match chans with
  | [] => (Ok [], h)
  | chan :: rest =>
      match process_bin hour_data chan h with
      | (Raise e, h) => (Raise e, h)
      | (Ok out, h) =>
          let '(r, h) := psd_loop hour_data rest h in
          (outs ← r; Ok (out :: outs), h)
      end
  end.

End Orchestration.

Arguments np_sum : simpl never.
Arguments np_nansum : simpl never.
Arguments np_mean : simpl never.

(** ** Vocabulary of the statements *)

(** A row of counts, as [np.histogram2d] returns them. *)
Definition count_row (row : list npfloat) : Prop :=
  exists ns : list nat, row = map of_nat ns.

(** [m] is the least of the entries of [a] that are not [nan]. *)
Definition least_sample (m : npfloat) (a : list npfloat) : Prop :=
  m ∈ a /\ m ≠ NaN /\ forall x, x ∈ a -> x ≠ NaN -> fle m x = true.

Definition greatest_sample (m : npfloat) (a : list npfloat) : Prop :=
  m ∈ a /\ m ≠ NaN /\ forall x, x ∈ a -> x ≠ NaN -> fle x m = true.

(** [n] values from [lo] to [hi], both included, evenly spaced on a
    logarithmic scale: the geometric progression
    [lo * (hi / lo) ^ (i / (n - 1))], [i = 0 .. n - 1]. *)
Definition log_spaced (lo hi : R) (n : nat) : list npfloat :=
  map (fun i => Num (lo * Rpower (hi / lo) (INR i / INR (n - 1)))) (seq 0 n).

(** [m] is the least of the entries of [a] that are finite and positive. *)
Definition least_positive_sample (m : R) (a : list npfloat) : Prop :=
  Num m ∈ a /\ (0 < m)%R /\ forall r : R, Num r ∈ a -> (0 < r)%R -> (m <= r)%R.

Arguments log_spaced : simpl never.

(** The histogram-weighted average of section 4.3:
    [Σ_j w[j]·a[j] / Σ_j w[j]]. *)
Definition weighted_average (w a : list npfloat) : npfloat :=
  fdiv (np_sum (zip_with fmul w a)) (np_sum w).

(** The mean and the variance of the log-powers [logym] under the weights
    of one histogram row. *)
Definition log_mean (row logym : list npfloat) : npfloat :=
  weighted_average row logym.

Definition log_variance (row logym : list npfloat) : npfloat :=
  weighted_average row (map (fun y => fsquare (fsub y (log_mean row logym))) logym).

(** A row the loop of [psd_stats] can process: as long as [ym], and with
    weights whose sum is not [0.0]. *)
Definition usable_row (logym row : list npfloat) : Prop :=
  length row = length logym /\ np_sum row ≠ Num 0.

(** The slots of [pool.map] once the tasks numbered in [finished] have
    completed with the results [outs]. *)
Definition slots_after {B} (finished : list nat) (outs : list B) : list (option B) :=
  imap (fun i b => if decide (i ∈ finished) then Some b else None) outs.

(** A pair of a frequency and a power that the histogram counts: the
    frequency within [[fmin, fmax]], the power not [nan]. *)
Definition counted (fmin fmax : R) (p : npfloat * npfloat) : bool :=
  fle (Num fmin) p.1 && fle p.1 (Num fmax) && negb (isnan p.2).

(** Edges from [lo] to [hi]: the first is [lo], the last is [hi], and all
    lie between the two. *)
Definition edges_between (lo hi : R) (edges : list npfloat) : Prop :=
  (exists rest, edges = Num lo :: rest) /\ List.last edges NaN = Num hi /\
  2 <= length edges /\
  Forall (fun e => exists r : R, e = Num r /\ (lo <= r <= hi)%R) edges.

(** Two heaps hold arrays of the same number of rows at [addr], with the
    same rows wherever [P] holds. *)
Definition rows_agree (addr : nat) (P : nat -> Prop) (h h' : heap) : Prop :=
  exists m m', h !! addr = Some m /\ h' !! addr = Some m' /\ length m = length m' /\
               forall r, P r -> m !! r = m' !! r.

(** The rows of the bin around [chan]. *)
Definition in_bin (half_bin chan : nat) (r : nat) : Prop :=
  chan - half_bin <= r < chan + half_bin.

(** ** Sample inputs *)

(** One channel of two samples, on a heap of its own; a periodogram of two
    frequencies with powers 1 and 2. *)
Definition sample_heap : heap := {[ 0 := [[Num 1; Num 3]] ]}.
Definition sample_view : ndview := View 0 0 1.
Definition sample_detrend (d : matrix) : result matrix := Ok d.
Definition sample_periodogram (d : matrix) (fs : npfloat)
  : result (list npfloat * matrix) := Ok ([Num 1; Num 2], [[Num 1; Num 2]]).

(** An OptoDAS file and an ONYX file, with the fields the adapter reads. *)
Definition sample_optodas_file : h5py_file :=
  H5File
    (<["header/gaugeLength" := H5Float (Num 10)]>
     (<["header/time" := H5Float (Num 1715299200)]>
     (<["header/dt" := H5Float (Num 2)]>
     (<["header/dx" := H5Float (Num 1)]>
     (<["header/unit" := H5Str "rad/m"]>
     (<["header/dimensionRanges/dimension0/size" := H5Int 6000]>
     (<["header/dimensionRanges/dimension1/size" := H5Array [Num 9000]]> ∅)))))))
    ∅.

Definition sample_onyx_file : h5py_file :=
  H5File
    {[ "Acquisition/Raw[0]/RawDataTime" := H5Array [Num 4e6; Num 4000500] ]}
    (<[("Acquisition", "GaugeLength") := H5Float (Num 10)]>
     (<[("Acquisition/Raw[0]", "OutputDataRate") := H5Float (Num 2)]>
     (<[("Acquisition", "SpatialSamplingInterval") := H5Float (Num 5)]>
     (<[("Acquisition/Raw[0]", "RawDataUnit") := H5Str "rad"]>
     (<[("Acquisition/Raw[0]", "NumberOfLoci") := H5Int 9000]> ∅))))).

Definition sample_disk : filesystem :=
  <["a.hdf5" := sample_optodas_file]> {[ "b.h5" := sample_onyx_file ]}.

(** Two files listed out of order and read out of order. *)
Definition sample_read_decimate (file : string) : result matrix :=
  if decide (file = "d/a.hdf5") then Ok [[Num 1]] else Ok [[Num 2]].

(** * Properties *)

(** ** Fallible computations *)

Lemma bind_Ok {A B} (a : A) (f : A -> result B) : Ok a ≫= f = f a.
Proof. done. Qed.

Lemma row_at_Some (H : matrix) ix row : H !! ix = Some row -> row_at H ix = Ok row.
Proof. unfold row_at. by intros ->. Qed.

(** ** Arithmetic of [npfloat] *)

Section Arithmetic.

Implicit Types x y z : npfloat.

Lemma fadd_comm x y : fadd x y = fadd y x.
Proof. destruct x, y; simpl; try done. f_equal; lra. Qed.

Lemma fadd_assoc x y z : fadd x (fadd y z) = fadd (fadd x y) z.
Proof. destruct x, y, z; simpl; try done. f_equal; lra. Qed.

Lemma fmul_comm x y : fmul x y = fmul y x.
Proof. destruct x, y; simpl; try done. f_equal; lra. Qed.

Lemma fadd_nan_r x : fadd x NaN = NaN.
Proof. by destruct x. Qed.

Lemma fmul_nan_r x : fmul x NaN = NaN.
Proof. by destruct x. Qed.

Lemma fdiv_nan_r x : fdiv x NaN = NaN.
Proof. by destruct x. Qed.

Lemma fsub_nan_r x : fsub x NaN = NaN.
Proof. by destruct x. Qed.

Lemma feq_num a b : feq (Num a) (Num b) = bool_decide (a = b).
Proof. done. Qed.

Lemma feq_zero_true x : feq x (Num 0) = true <-> x = Num 0.
Proof.
  destruct x; simpl; try (split; [done | discriminate]).
  rewrite bool_decide_eq_true. split; [by intros -> | by intros [= ->]].
Qed.

Lemma feq_zero_false x : feq x (Num 0) = false <-> x ≠ Num 0.
Proof. rewrite <- feq_zero_true. by destruct (feq x (Num 0)). Qed.

End Arithmetic.

Lemma fle_num (a b : R) : fle (Num a) (Num b) = bool_decide (a <= b)%R.
Proof.
  unfold fle. simpl. apply eq_true_iff_eq.
  rewrite orb_true_iff, !bool_decide_eq_true. lra.
Qed.

Lemma fle_refl x : x ≠ NaN -> fle x x = true.
Proof.
  destruct x; try done; intros _. rewrite fle_num. apply bool_decide_eq_true. lra.
Qed.

Lemma fle_trans x y z : fle x y = true -> fle y z = true -> fle x z = true.
Proof.
  destruct x, y, z; try done; rewrite !fle_num, !bool_decide_eq_true; lra.
Qed.

Lemma fle_antisym x y : fle x y = true -> fle y x = true -> x = y.
Proof.
  destruct x, y; try done. rewrite !fle_num, !bool_decide_eq_true.
  intros. f_equal. lra.
Qed.

Lemma flt_false_fle x y : x ≠ NaN -> y ≠ NaN -> flt y x = false -> fle x y = true.
Proof.
  destruct x, y; try done; intros _ _. simpl. rewrite fle_num.
  rewrite bool_decide_eq_false, bool_decide_eq_true. lra.
Qed.

Lemma flt_true_fle x y : flt x y = true -> fle x y = true.
Proof. unfold fle. by intros ->. Qed.

Lemma fle_not_nan x y : fle x y = true -> x ≠ NaN /\ y ≠ NaN.
Proof. by destruct x, y. Qed.

Lemma of_nat_nonzero (n : nat) : 0 < n -> of_nat n ≠ Num 0.
Proof.
  intros Hn [= Hz]. change 0%R with (INR 0) in Hz. apply INR_eq in Hz. lia.
Qed.

(** ** Logarithms and powers of ten *)

Lemma ln_10_pos : (0 < ln 10)%R.
Proof. rewrite <- ln_1. apply ln_increasing; lra. Qed.

Lemma np_log10_zero : np_log10 (Num 0) = NInf.
Proof. unfold np_log10. rewrite decide_False, decide_True by lra. done. Qed.

Lemma np_log10_pos (r : R) : (0 < r)%R -> np_log10 (Num r) = Num (Rlog 10 r).
Proof. intros. unfold np_log10. by rewrite decide_True. Qed.

Lemma np_log10_positive (ps : list R) :
  Forall (fun p => (0 < p)%R) ps ->
  map np_log10 (map Num ps) = map Num (map (Rlog 10) ps).
Proof.
  intros Hpos. rewrite <- !list_fmap_compose. apply Forall_fmap_ext_1.
  eapply Forall_impl; [done|]. intros p Hp. simpl. by rewrite decide_True.
Qed.

Lemma power10_log10 (r : R) :
  (0 < r)%R -> np_power10 (np_log10 (Num r)) = Num r.
Proof.
  intros Hr. simpl. rewrite decide_True by done. simpl. f_equal.
  apply Rpower_Rlog; lra.
Qed.

Lemma Rlog10_le (x y : R) : (0 < x <= y)%R -> (Rlog 10 x <= Rlog 10 y)%R.
Proof.
  intros [Hx [Hlt| ->]]; [|lra]. unfold Rlog.
  apply Rmult_le_compat_r; [left; apply Rinv_0_lt_compat, ln_10_pos|].
  left. by apply ln_increasing.
Qed.

Lemma Rlog10_lt (x y : R) : (0 < x < y)%R -> (Rlog 10 x < Rlog 10 y)%R.
Proof.
  intros [Hx Hlt]. unfold Rlog.
  apply Rmult_lt_compat_r; [apply Rinv_0_lt_compat, ln_10_pos|].
  by apply ln_increasing.
Qed.

Lemma Rpower10_le (x y : R) : (x <= y)%R -> (Rpower 10 x <= Rpower 10 y)%R.
Proof. intros. apply Rle_Rpower; lra. Qed.

Lemma Rpower10_lt (x y : R) : (x < y)%R -> (Rpower 10 x < Rpower 10 y)%R.
Proof. intros. apply Rpower_lt; lra. Qed.

Lemma Rpower_div_pos (x y : R) : (0 < x)%R -> (0 < y)%R -> (0 < y / x)%R.
Proof. intros. by apply Rdiv_lt_0_compat. Qed.

Lemma ln_div (x y : R) : (0 < x)%R -> (0 < y)%R -> ln (y / x) = (ln y - ln x)%R.
Proof.
  intros Hx Hy. unfold Rdiv. rewrite ln_mult, ln_Rinv; [lra|done..|].
  by apply Rinv_0_lt_compat.
Qed.

Lemma Rpower_gt_1 (x t : R) : (1 < x)%R -> (0 < t)%R -> (1 < Rpower x t)%R.
Proof.
  intros Hx Ht. unfold Rpower. rewrite <- exp_0. apply exp_increasing.
  apply Rmult_lt_0_compat; [done|]. rewrite <- ln_1. apply ln_increasing; lra.
Qed.

(** ** Sums *)

Lemma np_sum_cons x a : np_sum (x :: a) = fadd x (np_sum a).
Proof. done. Qed.

Lemma np_sum_app a b : np_sum (a ++ b) = fadd (np_sum a) (np_sum b).
Proof.
  induction a as [|x a IH].
  - change (np_sum []) with (Num 0). simpl.
    destruct (np_sum b); simpl; try done. f_equal; lra.
  - change ((x :: a) ++ b) with (x :: (a ++ b)).
    rewrite !np_sum_cons, IH. apply fadd_assoc.
Qed.

(** The sum of an array is [nan] as soon as one entry is. *)
Lemma np_sum_nan a : NaN ∈ a -> np_sum a = NaN.
Proof.
  induction a as [|x a IH]; [by intros ?%elem_of_nil|].
  intros [<-|Hin]%elem_of_cons; rewrite np_sum_cons; [done|].
  rewrite IH by done. apply fadd_nan_r.
Qed.

Lemma np_sum_Num (rs : list R) : np_sum (map Num rs) = Num (foldr Rplus 0%R rs).
Proof.
  induction rs as [|r rs IH]; [done|].
  change (map Num (r :: rs)) with (Num r :: map Num rs).
  by rewrite np_sum_cons, IH.
Qed.

Lemma np_sum_pair (a b : R) : np_sum [Num a; Num b] = Num (a + (b + 0)).
Proof. done. Qed.

(** A finite sum has finite terms only. *)
Lemma np_sum_finite (a : list npfloat) (s : R) :
  np_sum a = Num s -> Forall (fun x => isfinite x = true) a.
Proof.
  revert s. induction a as [|x a IH]; intros s; [done|].
  rewrite np_sum_cons. destruct x as [r| | |], (np_sum a) as [t| | |] eqn:Ha; try done.
  intros _. constructor; [done|]. by eapply IH.
Qed.

(** Counts are finite: their sum is the count of the row. *)
Lemma np_sum_of_nat (ns : list nat) :
  np_sum (map of_nat ns) = of_nat (foldr Nat.add 0 ns).
Proof.
  induction ns as [|n ns IH]; [done|].
  change (map of_nat (n :: ns)) with (of_nat n :: map of_nat ns).
  rewrite np_sum_cons, IH. unfold of_nat. simpl foldr. simpl fadd. by rewrite plus_INR.
Qed.

Lemma np_nansum_of_nat (ns : list nat) :
  np_nansum (map of_nat ns) = np_sum (map of_nat ns).
Proof.
  unfold np_nansum. f_equal. rewrite <- list_fmap_compose.
  by apply list_fmap_ext.
Qed.

(** Dividing finite entries by a finite non-zero number divides their sum. *)
Lemma np_sum_div_num (rs : list R) (t : R) :
  t ≠ 0%R ->
  np_sum (map (fun c => fdiv (Num c) (Num t)) rs) = Num (foldr Rplus 0%R rs / t).
Proof.
  intros Ht. induction rs as [|r rs IH].
  - unfold np_sum. simpl. f_equal. field. done.
  - change (np_sum (fdiv (Num r) (Num t) :: map (fun c => fdiv (Num c) (Num t)) rs) =
            Num ((r + foldr Rplus 0%R rs) / t)).
    rewrite np_sum_cons, IH. simpl. rewrite decide_False by done.
    simpl. f_equal. field. done.
Qed.

Lemma INR_foldr_add (ns : list nat) :
  foldr Rplus 0%R (map INR ns) = INR (foldr Nat.add 0 ns).
Proof.
  induction ns as [|n ns IH]; [done|]. simpl. by rewrite plus_INR, IH.
Qed.

(** ** Minimum and maximum that skip [nan] *)

Lemma np_fmin_nan_l x : np_fmin NaN x = x.
Proof. done. Qed.

Lemma np_fmin_nan_r x : np_fmin x NaN = x.
Proof. by destruct x. Qed.

Lemma np_fmax_nan_r x : np_fmax x NaN = x.
Proof. by destruct x. Qed.

Lemma foldl_fmin_nan a : Forall (fun x => x = NaN) a -> foldl np_fmin NaN a = NaN.
Proof. induction 1 as [|x a -> _ IH]; [done|]. apply IH. Qed.

Lemma foldl_fmax_nan a : Forall (fun x => x = NaN) a -> foldl np_fmax NaN a = NaN.
Proof. induction 1 as [|x a -> _ IH]; [done|]. apply IH. Qed.

Lemma foldl_fmin_skip x a : Forall (fun p => p = NaN) a -> foldl np_fmin x a = x.
Proof.
  intros Hall. revert x. induction Hall as [|p a -> _ IH]; intros x; [done|].
  simpl. by rewrite np_fmin_nan_r.
Qed.

Lemma foldl_fmax_skip x a : Forall (fun p => p = NaN) a -> foldl np_fmax x a = x.
Proof.
  intros Hall. revert x. induction Hall as [|p a -> _ IH]; intros x; [done|].
  simpl. by rewrite np_fmax_nan_r.
Qed.

Lemma np_nanmin_foldl a : a ≠ [] -> np_nanmin a = Ok (foldl np_fmin NaN a).
Proof. by destruct a. Qed.

Lemma np_nanmax_foldl a : a ≠ [] -> np_nanmax a = Ok (foldl np_fmax NaN a).
Proof. by destruct a. Qed.

Lemma np_fmin_cases x y :
  x ≠ NaN ->
  np_fmin x y ≠ NaN /\ (np_fmin x y = x \/ np_fmin x y = y) /\
  fle (np_fmin x y) x = true /\ (y ≠ NaN -> fle (np_fmin x y) y = true).
Proof.
  intros Hx. destruct (decide (y = NaN)) as [->|Hy].
  { replace (np_fmin x NaN) with x by by destruct x.
    split_and!; [done|by left|by apply fle_refl|done]. }
  assert (np_fmin x y = if flt y x then y else x) as -> by by destruct x, y.
  destruct (flt y x) eqn:Hlt.
  - split_and!; [done|by right|by apply flt_true_fle|by intros; apply fle_refl].
  - split_and!; [done|by left|by apply fle_refl|by intros; apply flt_false_fle].
Qed.

Lemma np_fmax_cases x y :
  x ≠ NaN ->
  np_fmax x y ≠ NaN /\ (np_fmax x y = x \/ np_fmax x y = y) /\
  fle x (np_fmax x y) = true /\ (y ≠ NaN -> fle y (np_fmax x y) = true).
Proof.
  intros Hx. destruct (decide (y = NaN)) as [->|Hy].
  { replace (np_fmax x NaN) with x by by destruct x.
    split_and!; [done|by left|by apply fle_refl|done]. }
  assert (np_fmax x y = if flt x y then y else x) as -> by by destruct x, y.
  destruct (flt x y) eqn:Hlt.
  - split_and!; [done|by right|by apply flt_true_fle|by intros; apply fle_refl].
  - split_and!; [done|by left|by apply fle_refl|by intros; apply flt_false_fle].
Qed.

Lemma foldl_fmin_least x a :
  x ≠ NaN -> least_sample (foldl np_fmin x a) (x :: a).
Proof.
  revert x. induction a as [|y a IH]; intros x Hx.
  - simpl. split_and!; [by left|done|].
    intros z ->%list_elem_of_singleton _. by apply fle_refl.
  - simpl. destruct (np_fmin_cases x y Hx) as (Hn & Hxy & Hlex & Hley).
    destruct (IH _ Hn) as (Hin & Hn' & Hle).
    assert (fle (foldl np_fmin (np_fmin x y) a) (np_fmin x y) = true) as Hm
      by (apply Hle; [by left|done]).
    split_and!; [|done|].
    + apply elem_of_cons in Hin as [->|Hin].
      * destruct Hxy as [-> | ->]; [by left|by right; left].
      * by do 2 right.
    + intros z Hz Hzn.
      apply elem_of_cons in Hz as [->|Hz]; [by eapply fle_trans|].
      apply elem_of_cons in Hz as [->|Hz]; [eapply fle_trans; eauto|].
      apply Hle; [by right|done].
Qed.

Lemma foldl_fmax_greatest x a :
  x ≠ NaN -> greatest_sample (foldl np_fmax x a) (x :: a).
Proof.
  revert x. induction a as [|y a IH]; intros x Hx.
  - simpl. split_and!; [by left|done|].
    intros z ->%list_elem_of_singleton _. by apply fle_refl.
  - simpl. destruct (np_fmax_cases x y Hx) as (Hn & Hxy & Hlex & Hley).
    destruct (IH _ Hn) as (Hin & Hn' & Hle).
    assert (fle (np_fmax x y) (foldl np_fmax (np_fmax x y) a) = true) as Hm
      by (apply Hle; [by left|done]).
    split_and!; [|done|].
    + apply elem_of_cons in Hin as [->|Hin].
      * destruct Hxy as [-> | ->]; [by left|by right; left].
      * by do 2 right.
    + intros z Hz Hzn.
      apply elem_of_cons in Hz as [->|Hz]; [by eapply fle_trans|].
      apply elem_of_cons in Hz as [->|Hz]; [eapply fle_trans; eauto|].
      apply Hle; [by right|done].
Qed.

(** [np.nanmin]: [nan] exactly when every entry is, and the least of the
    other entries otherwise. *)
Lemma np_nanmin_spec a m :
  np_nanmin a = Ok m ->
  (m = NaN /\ Forall (fun x => x = NaN) a) \/ least_sample m a.
Proof.
  destruct a as [|x a]; [done|]. intros [= <-]. revert x.
  induction a as [|y a IH]; intros x.
  - destruct (decide (x = NaN)) as [->|Hx]; [left; by repeat constructor|].
    right. by apply foldl_fmin_least.
  - destruct (decide (x = NaN)) as [->|Hx]; [|right; by apply foldl_fmin_least].
    simpl. destruct (IH y) as [[Hm Hall]|(Hin & Hn & Hle)].
    + left. split; [done|]. by constructor.
    + right. split_and!; [by right|done|]. intros z Hz Hzn.
      apply elem_of_cons in Hz as [->|Hz]; [done|]. by apply Hle.
Qed.

Lemma np_nanmax_spec a m :
  np_nanmax a = Ok m ->
  (m = NaN /\ Forall (fun x => x = NaN) a) \/ greatest_sample m a.
Proof.
  destruct a as [|x a]; [done|]. intros [= <-]. revert x.
  induction a as [|y a IH]; intros x.
  - destruct (decide (x = NaN)) as [->|Hx]; [left; by repeat constructor|].
    right. by apply foldl_fmax_greatest.
  - destruct (decide (x = NaN)) as [->|Hx]; [|right; by apply foldl_fmax_greatest].
    simpl. destruct (IH y) as [[Hm Hall]|(Hin & Hn & Hle)].
    + left. split; [done|]. by constructor.
    + right. split_and!; [by right|done|]. intros z Hz Hzn.
      apply elem_of_cons in Hz as [->|Hz]; [done|]. by apply Hle.
Qed.

Lemma least_sample_unique m m' a : least_sample m a -> least_sample m' a -> m = m'.
Proof.
  intros (Hin & Hn & Hle) (Hin' & Hn' & Hle'). apply fle_antisym; auto.
Qed.

Lemma greatest_sample_unique m m' a :
  greatest_sample m a -> greatest_sample m' a -> m = m'.
Proof.
  intros (Hin & Hn & Hle) (Hin' & Hn' & Hle'). apply fle_antisym; auto.
Qed.

Lemma np_nanmin_least m a : least_sample m a -> np_nanmin a = Ok m.
Proof.
  intros Hm. destruct (np_nanmin a) as [m'|e] eqn:Hmin.
  - apply np_nanmin_spec in Hmin as [[-> Hall]|Hm'].
    + destruct Hm as (Hin & Hn & _). rewrite Forall_forall in Hall. by apply Hall in Hin.
    + f_equal. by eapply least_sample_unique.
  - destruct a; [|done]. destruct Hm as (Hin & _). by apply elem_of_nil in Hin.
Qed.

Lemma np_nanmax_greatest m a : greatest_sample m a -> np_nanmax a = Ok m.
Proof.
  intros Hm. destruct (np_nanmax a) as [m'|e] eqn:Hmax.
  - apply np_nanmax_spec in Hmax as [[-> Hall]|Hm'].
    + destruct Hm as (Hin & Hn & _). rewrite Forall_forall in Hall. by apply Hall in Hin.
    + f_equal. by eapply greatest_sample_unique.
  - destruct a; [|done]. destruct Hm as (Hin & _). by apply elem_of_nil in Hin.
Qed.

Lemma least_greatest_le (lo hi : R) a :
  least_sample (Num lo) a -> greatest_sample (Num hi) a -> (lo <= hi)%R.
Proof.
  intros (Hin & _ & _) (_ & _ & Hle).
  specialize (Hle _ Hin ltac:(done)). rewrite fle_num in Hle.
  by apply bool_decide_eq_true in Hle.
Qed.

Lemma least_sample_singleton (r : R) : least_sample (Num r) [Num r].
Proof.
  split_and!; [by left|done|].
  intros x ->%list_elem_of_singleton _. by apply fle_refl.
Qed.

Lemma greatest_sample_singleton (r : R) : greatest_sample (Num r) [Num r].
Proof.
  split_and!; [by left|done|].
  intros x ->%list_elem_of_singleton _. by apply fle_refl.
Qed.

Lemma least_sample_pair (a b : R) : (a <= b)%R -> least_sample (Num a) [Num a; Num b].
Proof.
  intros Hab. split_and!; [by left|done|]. intros x Hx _.
  apply elem_of_cons in Hx as [->|Hx]; [by apply fle_refl|].
  apply list_elem_of_singleton in Hx as ->. rewrite fle_num. by apply bool_decide_eq_true.
Qed.

Lemma greatest_sample_pair (a b : R) : (a <= b)%R -> greatest_sample (Num b) [Num a; Num b].
Proof.
  intros Hab. split_and!; [by right; left|done|]. intros x Hx _.
  apply elem_of_cons in Hx as [->|Hx]; [rewrite fle_num; by apply bool_decide_eq_true|].
  apply list_elem_of_singleton in Hx as ->. by apply fle_refl.
Qed.

Lemma least_sample_perm m a a' : a ≡ₚ a' -> least_sample m a -> least_sample m a'.
Proof.
  intros Hp (Hin & Hn & Hle). split_and!; [by rewrite <- Hp|done|].
  intros x Hx. apply Hle. by rewrite Hp.
Qed.

Lemma greatest_sample_perm m a a' :
  a ≡ₚ a' -> greatest_sample m a -> greatest_sample m a'.
Proof.
  intros Hp (Hin & Hn & Hle). split_and!; [by rewrite <- Hp|done|].
  intros x Hx. apply Hle. by rewrite Hp.
Qed.

Lemma np_nanmin_perm a a' : a ≡ₚ a' -> np_nanmin a = np_nanmin a'.
Proof.
  intros Hp. destruct (np_nanmin a) as [m|e] eqn:Hmin.
  - apply np_nanmin_spec in Hmin as Hspec. destruct Hspec as [[-> Hall]|Hm].
    + assert (a' ≠ []) as Hne.
      { intros ->. apply Permutation_nil_r in Hp as ->. done. }
      rewrite np_nanmin_foldl by done. rewrite Hp in Hall.
      by rewrite foldl_fmin_nan.
    + symmetry. by eapply np_nanmin_least, least_sample_perm.
  - destruct a; [|done]. by apply Permutation_nil_l in Hp as <-.
Qed.

Lemma np_nanmax_perm a a' : a ≡ₚ a' -> np_nanmax a = np_nanmax a'.
Proof.
  intros Hp. destruct (np_nanmax a) as [m|e] eqn:Hmax.
  - apply np_nanmax_spec in Hmax as Hspec. destruct Hspec as [[-> Hall]|Hm].
    + assert (a' ≠ []) as Hne.
      { intros ->. apply Permutation_nil_r in Hp as ->. done. }
      rewrite np_nanmax_foldl by done. rewrite Hp in Hall.
      by rewrite foldl_fmax_nan.
    + symmetry. by eapply np_nanmax_greatest, greatest_sample_perm.
  - destruct a; [|done]. by apply Permutation_nil_l in Hp as <-.
Qed.

(** ** [np.linspace] and [np.logspace] *)

Lemma np_linspace_length start stop n : length (np_linspace start stop n) = n.
Proof.
  unfold np_linspace.
  repeat case_match; rewrite ?length_insert, !length_map, length_seq; done.
Qed.

Lemma INR_pred_neq_0 n : 2 <= n -> INR (n - 1) ≠ 0%R.
Proof. intros Hn. apply not_0_INR. lia. Qed.

Lemma np_linspace_finite (a b : R) (n : nat) :
  2 <= n ->
  np_linspace (Num a) (Num b) n =
  map (fun i => Num (a + INR i * ((b - a) / INR (n - 1)))) (seq 0 n).
Proof.
  intros Hn. pose proof (INR_pred_neq_0 n Hn) as Hd.
  unfold np_linspace. rewrite !decide_True by lia.
  apply list_eq. intros i.
  destruct (decide (i = n - 1)) as [->|Hi].
  - rewrite list_lookup_insert_eq.
    2:{ repeat case_match; rewrite !length_map, length_seq; lia. }
    rewrite list_lookup_fmap, lookup_seq_lt by lia. simpl. do 2 f_equal. by field.
  - rewrite list_lookup_insert_ne by done.
    simpl. rewrite decide_False by done.
    case_match; rewrite !list_lookup_fmap; destruct (seq 0 n !! i) as [k|]; simpl; try done.
    + rewrite decide_False by done. simpl. do 2 f_equal. unfold Rminus. by field.
    + do 2 f_equal. unfold Rminus. by field.
Qed.

(** Edges that are all [nan] pass the check of [histogramdd]: no
    comparison with [nan] holds. *)
Lemma np_linspace_nan (n : nat) : Forall (fun x => x = NaN) (np_linspace NaN NaN n).
Proof.
  unfold np_linspace.
  assert (forall l : list npfloat,
            Forall (fun x => x = NaN) (map (fun v => fadd v NaN) l)) as Hall.
  { intros l. apply Forall_fmap, Forall_forall. intros v _. apply fadd_nan_r. }
  repeat case_match; try apply Forall_insert; try done; apply Hall.
Qed.

(** With a sample of zero power the lower power edge is not a sample at
    all: [log10 0 = -inf], and [np.linspace] from [-inf] starts with [nan]. *)
Lemma np_linspace_from_ninf (stop : npfloat) (n : nat) :
  2 <= n -> np_linspace NInf stop n !! 0 = Some NaN.
Proof.
  intros Hn. unfold np_linspace. rewrite !decide_True by lia.
  rewrite list_lookup_insert_ne by lia.
  pose proof (pos_INR (n - 1)).
  assert (fdiv (fsub stop NInf) (of_nat (n - 1)) = PInf
          \/ fdiv (fsub stop NInf) (of_nat (n - 1)) = NaN) as [-> | ->].
  { destruct stop; simpl; rewrite ?decide_True by done; auto. }
  - simpl. rewrite !list_lookup_fmap, lookup_seq_lt by lia. simpl.
    unfold inf_times. by rewrite decide_True.
  - simpl. rewrite !list_lookup_fmap, lookup_seq_lt by lia. done.
Qed.

Lemma np_logspace_length start stop n : length (np_logspace start stop n) = n.
Proof. unfold np_logspace. by rewrite length_map, np_linspace_length. Qed.

Lemma np_logspace_finite (a b : R) (n : nat) :
  2 <= n ->
  np_logspace (Num a) (Num b) n =
  map (fun i => Num (Rpower 10 (a + INR i * ((b - a) / INR (n - 1))))) (seq 0 n).
Proof.
  intros Hn. unfold np_logspace. rewrite np_linspace_finite by done.
  by rewrite <- list_fmap_compose.
Qed.

Lemma np_logspace_lookup (a b : R) (n i : nat) :
  2 <= n -> i < n ->
  np_logspace (Num a) (Num b) n !! i
  = Some (Num (Rpower 10 (a + INR i * ((b - a) / INR (n - 1))))).
Proof.
  intros Hn Hi. rewrite np_logspace_finite by done.
  by rewrite list_lookup_fmap, lookup_seq_lt.
Qed.

Lemma np_logspace_nan (n : nat) : Forall (fun x => x = NaN) (np_logspace NaN NaN n).
Proof.
  unfold np_logspace. apply Forall_fmap.
  eapply Forall_impl; [apply np_linspace_nan|]. by intros x ->.
Qed.

(** [any_decreasing] looks at every pair of neighbours. *)
Lemma any_decreasing_false (l : list npfloat) :
  any_decreasing l = false <->
  forall i a b, l !! i = Some a -> l !! S i = Some b -> fgt a b = false.
Proof.
  induction l as [|a [|b l] IH].
  - split; [by intros _ []|done].
  - split; [by intros _ [|[]]|done].
  - change (any_decreasing (a :: b :: l)) with (fgt a b || any_decreasing (b :: l)).
    rewrite orb_false_iff, IH. split.
    + intros [Hab Hl] [|i] x y; simpl; [by intros [= <-] [= <-]|]. apply Hl.
    + intros Hl. split; [by apply (Hl 0)|]. intros i. apply (Hl (S i)).
Qed.

Lemma any_decreasing_true (l : list npfloat) i a b :
  l !! i = Some a -> l !! S i = Some b -> fgt a b = true -> any_decreasing l = true.
Proof.
  intros Ha Hb Hgt. destruct (any_decreasing l) eqn:Hl; [done|].
  rewrite any_decreasing_false in Hl. by rewrite (Hl _ _ _ Ha Hb) in Hgt.
Qed.

Lemma any_decreasing_nan (l : list npfloat) :
  Forall (fun x => x = NaN) l -> any_decreasing l = false.
Proof.
  intros Hall. apply any_decreasing_false. intros i a b Ha Hb.
  rewrite Forall_forall in Hall.
  by rewrite (Hall b) by by eapply list_elem_of_lookup_2.
Qed.

(** Edges from a lower to a higher exponent pass the check of
    [histogramdd]; edges from a higher to a lower one fail it. *)
Lemma np_logspace_increasing (a b : R) (n : nat) :
  2 <= n -> (a <= b)%R -> any_decreasing (np_logspace (Num a) (Num b) n) = false.
Proof.
  intros Hn Hab. apply any_decreasing_false. intros i x y Hx Hy.
  assert (S i < n) as Hi.
  { apply lookup_lt_Some in Hy. by rewrite np_logspace_length in Hy. }
  rewrite np_logspace_lookup in Hx, Hy by lia. rewrite S_INR in Hy. simplify_eq.
  unfold fgt, flt. apply bool_decide_eq_false, Rle_not_lt, Rpower10_le.
  pose proof (INR_pred_neq_0 n Hn). pose proof (pos_INR (n - 1)).
  assert (0 <= (b - a) / INR (n - 1))%R; [|lra].
  apply Rmult_le_pos; [lra|]. left. apply Rinv_0_lt_compat. lra.
Qed.

Lemma np_logspace_decreasing (a b : R) (n : nat) :
  2 <= n -> (b < a)%R -> any_decreasing (np_logspace (Num a) (Num b) n) = true.
Proof.
  intros Hn Hab.
  eapply (any_decreasing_true _ 0); [by apply np_logspace_lookup; lia..|].
  unfold fgt, flt. apply bool_decide_eq_true, Rpower10_lt.
  change (INR 1) with 1%R. change (INR 0) with 0%R.
  pose proof (INR_pred_neq_0 n Hn). pose proof (pos_INR (n - 1)).
  assert ((b - a) / INR (n - 1) < 0)%R; [|lra].
  unfold Rdiv. rewrite <- (Rmult_0_l (/ INR (n - 1))).
  apply Rmult_lt_compat_r; [|lra]. apply Rinv_0_lt_compat. lra.
Qed.

(** The exponents [np.linspace] gives between [log10 lo] and [log10 hi]
    are those of the geometric progression from [lo] to [hi]. *)
Lemma Rpower10_geometric (lo hi : R) (n i : nat) :
  (0 < lo)%R -> (0 < hi)%R -> 2 <= n ->
  Rpower 10 (Rlog 10 lo + INR i * ((Rlog 10 hi - Rlog 10 lo) / INR (n - 1)))
  = (lo * Rpower (hi / lo) (INR i / INR (n - 1)))%R.
Proof.
  intros Hlo Hhi Hn. pose proof (INR_pred_neq_0 n Hn) as Hd.
  pose proof ln_10_pos as H10.
  rewrite Rpower_plus, Rpower_Rlog by lra. f_equal.
  unfold Rpower. f_equal. rewrite ln_div by done. unfold Rlog. field. lra.
Qed.

Lemma np_logspace_log_spaced (lo hi : R) (n : nat) :
  (0 < lo)%R -> (0 < hi)%R -> 2 <= n ->
  np_logspace (np_log10 (Num lo)) (np_log10 (Num hi)) n = log_spaced lo hi n.
Proof.
  intros Hlo Hhi Hn. simpl. rewrite !decide_True by done.
  rewrite np_logspace_finite by done. unfold log_spaced.
  apply list_fmap_ext. intros _ i _. f_equal. by apply Rpower10_geometric.
Qed.

Lemma log_spaced_length lo hi n : length (log_spaced lo hi n) = n.
Proof. unfold log_spaced. by rewrite length_map, length_seq. Qed.

Lemma log_spaced_first (lo hi : R) (n : nat) :
  (0 < lo)%R -> (0 < hi)%R -> 2 <= n -> log_spaced lo hi n !! 0 = Some (Num lo).
Proof.
  intros Hlo Hhi Hn. unfold log_spaced.
  rewrite list_lookup_fmap, lookup_seq_lt by lia. simpl. do 2 f_equal.
  unfold Rdiv at 2. rewrite Rmult_0_l, Rpower_O; [lra|]. by apply Rpower_div_pos.
Qed.

Lemma log_spaced_last (lo hi : R) (n : nat) :
  (0 < lo)%R -> (0 < hi)%R -> 2 <= n -> log_spaced lo hi n !! (n - 1) = Some (Num hi).
Proof.
  intros Hlo Hhi Hn. pose proof (INR_pred_neq_0 n Hn) as Hd. unfold log_spaced.
  rewrite list_lookup_fmap, lookup_seq_lt by lia. simpl. do 2 f_equal.
  replace (INR (n - 1) / INR (n - 1))%R with 1%R by by field.
  rewrite Rpower_1 by by apply Rpower_div_pos. field. lra.
Qed.

Lemma log_spaced_increasing (lo hi : R) (n : nat) :
  (0 < lo <= hi)%R -> 2 <= n -> any_decreasing (log_spaced lo hi n) = false.
Proof.
  intros [Hlo Hle] Hn. rewrite <- np_logspace_log_spaced by (done || lra).
  simpl. rewrite !decide_True by lra.
  apply np_logspace_increasing; [done|]. apply Rlog10_le. lra.
Qed.

Lemma log_spaced_cons (lo hi : R) (n : nat) :
  (0 < lo < hi)%R -> 2 <= n ->
  exists rest,
    log_spaced lo hi n = Num lo :: rest /\ rest ≠ [] /\
    Forall (fun e => flt (Num lo) e = true) rest.
Proof.
  intros [Hlo Hlt] Hn. pose proof (INR_pred_neq_0 n Hn) as Hd.
  pose proof (pos_INR (n - 1)) as Hpos.
  assert (1 < hi / lo)%R as Hratio.
  { apply (Rmult_lt_reg_r lo); [done|]. field_simplify; lra. }
  destruct n as [|n]; [lia|]. unfold log_spaced. cbn [seq map].
  eexists. split_and!.
  - f_equal. f_equal. change (INR 0) with 0%R.
    unfold Rdiv at 2. rewrite Rmult_0_l, Rpower_O; lra.
  - destruct n; [lia|done].
  - apply Forall_fmap, Forall_forall. intros i [Hi _]%elem_of_seq.
    unfold compose, flt. apply bool_decide_eq_true.
    rewrite <- (Rmult_1_r lo) at 1. apply Rmult_lt_compat_l; [done|].
    apply Rpower_gt_1; [done|]. apply Rdiv_lt_0_compat; [|lra].
    apply lt_0_INR. lia.
Qed.

(** ** The bin edges of [ppsd] *)

Lemma xbins_log_spaced (fmin fmax : R) :
  (0 < fmin)%R -> (0 < fmax)%R ->
  xbins (Num fmin) (Num fmax) = log_spaced fmin fmax 100.
Proof. intros. apply np_logspace_log_spaced; [done..|lia]. Qed.

Lemma xbins_decreasing (fmin fmax : R) :
  (0 < fmax < fmin)%R -> any_decreasing (xbins (Num fmin) (Num fmax)) = true.
Proof.
  intros [Hmax Hlt]. unfold xbins. rewrite !np_log10_pos by lra.
  apply np_logspace_decreasing; [lia|]. apply Rlog10_lt. lra.
Qed.

Lemma ybins_log_spaced (lo hi : R) spec :
  least_sample (Num lo) spec -> greatest_sample (Num hi) spec -> (0 < lo)%R ->
  ybins spec = Ok (log_spaced lo hi 200).
Proof.
  intros Hlo Hhi Hpos. pose proof (least_greatest_le _ _ _ Hlo Hhi).
  unfold ybins. rewrite (np_nanmin_least _ _ Hlo), (np_nanmax_greatest _ _ Hhi).
  simpl. f_equal. apply np_logspace_log_spaced; [lra..|lia].
Qed.

Lemma ybins_all_nan spec :
  spec ≠ [] -> Forall (fun x => x = NaN) spec ->
  ybins spec = Ok (np_logspace NaN NaN 200).
Proof.
  intros Hne Hall. destruct spec as [|x spec]; [done|].
  apply Forall_cons in Hall as [-> Hall].
  unfold ybins, np_nanmin, np_nanmax.
  by rewrite foldl_fmin_nan, foldl_fmax_nan.
Qed.

Lemma ybins_length spec yb : ybins spec = Ok yb -> length yb = 200.
Proof.
  unfold ybins. destruct (np_nanmin spec); [|done]. destruct (np_nanmax spec); [|done].
  intros [= <-]. apply np_logspace_length.
Qed.

Lemma np_histogram2d_counts x y xe ye C xe' ye' :
  np_histogram2d x y xe ye = Ok (C, xe', ye') ->
  Forall count_row C /\ xe' = xe /\ ye' = ye /\
  length C = length xe - 1 /\ Forall (fun row => length row = length ye - 1) C.
Proof.
  unfold np_histogram2d. intros Hh.
  repeat case_match; simplify_eq. unfold bin_counts.
  split_and!; try done.
  - apply Forall_forall. intros row (i & -> & _)%list_elem_of_fmap.
    eexists (map (count_in_bin _ i) (seq 0 (length ye' - 1))).
    by rewrite <- list_fmap_compose.
  - by rewrite length_map, length_seq.
  - apply Forall_forall. intros row (i & -> & _)%list_elem_of_fmap.
    by rewrite length_map, length_seq.
Qed.

Lemma np_histogram2d_bin_counts x y xe ye :
  length x = length y -> any_decreasing xe = false -> any_decreasing ye = false ->
  np_histogram2d x y xe ye = Ok (bin_counts x y xe ye, xe, ye).
Proof.
  intros Hlen Hx Hy. unfold np_histogram2d.
  rewrite decide_False by (by intros []). by rewrite Hx, Hy.
Qed.

Lemma np_histogram2d_returns x y xe ye :
  length x = length y -> any_decreasing xe = false -> any_decreasing ye = false ->
  exists C, np_histogram2d x y xe ye = Ok (C, xe, ye).
Proof. intros. eexists. by apply np_histogram2d_bin_counts. Qed.



(** A power sample of zero makes the first power edge [nan]. *)
Lemma ybins_zero_power (hi : R) (spec : list npfloat) :
  least_sample (Num 0) spec -> greatest_sample (Num hi) spec ->
  exists yb, ybins spec = Ok yb /\ yb !! 0 = Some NaN.
Proof.
  intros Hlo Hhi. unfold ybins.
  rewrite (np_nanmin_least _ _ Hlo), (np_nanmax_greatest _ _ Hhi), !bind_Ok.
  eexists. split; [done|]. rewrite np_log10_zero. unfold np_logspace.
  rewrite list_lookup_fmap.
  by rewrite np_linspace_from_ninf by lia.
Qed.


(** ** When the builder returns and when it raises *)

Lemma pdf_counts_returns (fmin fmax lo hi : R) (freq spec : list npfloat) :
  (0 < fmin <= fmax)%R ->
  length freq = length spec ->
  least_sample (Num lo) spec -> greatest_sample (Num hi) spec -> (0 < lo)%R ->
  pdf_counts freq spec (Num fmin) (Num fmax)
  = Ok (bin_counts freq spec (log_spaced fmin fmax 100) (log_spaced lo hi 200),
        log_spaced fmin fmax 100, log_spaced lo hi 200).
Proof.
  intros [Hfmin Hf] Hlen Hlo Hhi Hpos.
  pose proof (least_greatest_le _ _ _ Hlo Hhi) as Hle.
  unfold pdf_counts. rewrite (ybins_log_spaced lo hi), bind_Ok by done.
  rewrite xbins_log_spaced by lra.
  apply np_histogram2d_bin_counts; [done|..]; apply log_spaced_increasing; (lra || lia).
Qed.

Lemma generate_pdf_returns (fmin fmax lo hi : R) (freq spec : list npfloat) :
  (0 < fmin <= fmax)%R ->
  length freq = length spec ->
  least_sample (Num lo) spec -> greatest_sample (Num hi) spec -> (0 < lo)%R ->
  exists r, generate_pdf freq spec (Num fmin) (Num fmax) = Ok r.
Proof.
  intros Hf Hlen Hlo Hhi Hpos.
  unfold generate_pdf.
  rewrite (pdf_counts_returns _ _ _ _ _ _ Hf Hlen Hlo Hhi Hpos). by eexists.
Qed.

(** Equal bounds are accepted: the 100 edges are all equal and pass the
    check of [np.histogram2d]. *)
Lemma generate_pdf_accepts_equal_bounds (f lo hi : R) (freq spec : list npfloat) :
  (0 < f)%R -> length freq = length spec ->
  least_sample (Num lo) spec -> greatest_sample (Num hi) spec -> (0 < lo)%R ->
  exists r, generate_pdf freq spec (Num f) (Num f) = Ok r.
Proof. intros. eapply generate_pdf_returns; [lra|done..]. Qed.

(** Power samples that are all [nan] are accepted: the 200 edges are all
    [nan], and no comparison with [nan] holds. *)
Lemma generate_pdf_accepts_nan_power (fmin fmax : R) (freq spec : list npfloat) :
  (0 < fmin <= fmax)%R -> length freq = length spec ->
  spec ≠ [] -> Forall (fun p => p = NaN) spec ->
  exists r, generate_pdf freq spec (Num fmin) (Num fmax) = Ok r.
Proof.
  intros Hf Hlen Hne Hall. unfold generate_pdf, pdf_counts.
  rewrite ybins_all_nan, bind_Ok by done.
  rewrite xbins_log_spaced by lra.
  rewrite np_histogram2d_bin_counts; [by eexists|done|..].
  - apply log_spaced_increasing; [lra|lia].
  - apply any_decreasing_nan, np_logspace_nan.
Qed.

Lemma generate_pdf_inv freq spec fmin fmax H xm ym :
  generate_pdf freq spec fmin fmax = Ok (H, xm, ym) ->
  exists C xe ye,
    pdf_counts freq spec fmin fmax = Ok (C, xe, ye) /\
    H = normalize_rows C /\ xm = bin_centers xe /\ ym = bin_centers ye.
Proof.
  unfold generate_pdf. destruct (pdf_counts _ _ _ _) as [[[C xe] ye]|]; [|done].
  simpl. intros [= <- <- <-]. by exists C, xe, ye.
Qed.

Lemma ppsd_inv detrend periodogram data fs fmin fmax h r h' :
  ppsd detrend periodogram data fs fmin fmax h = (Ok r, h') ->
  exists freq spec,
    periodogram_pairs detrend periodogram data fs h = (Ok (freq, spec), h') /\
    generate_pdf freq spec fmin fmax = Ok r.
Proof.
  unfold ppsd. destruct (periodogram_pairs _ _ _ _ _) as [[[freq spec]|] h1]; [|done].
  simpl. intros [= Hr <-]. by exists freq, spec.
Qed.

Lemma sample_read : read_view sample_view sample_heap = Some [[Num 1; Num 3]].
Proof. unfold read_view, sample_heap. by rewrite lookup_singleton_eq. Qed.

(** On the sample heap [ppsd] is the builder on the pairs of the sample
    periodogram, and leaves the demeaned channel behind. *)
Lemma ppsd_sample fs fmin fmax :
  ppsd sample_detrend sample_periodogram sample_view fs fmin fmax sample_heap
  = (generate_pdf [Num 1; Num 2] [Num 1; Num 2] fmin fmax,
     write_view sample_view (demean [[Num 1; Num 3]]) sample_heap).
Proof.
  unfold ppsd, periodogram_pairs. rewrite sample_read.
  unfold sample_detrend, sample_periodogram. by rewrite !bind_Ok.
Qed.


Lemma generate_pdf_decreasing_range (fmin fmax : R) freq spec :
  (0 < fmax < fmin)%R ->
  exists msg, generate_pdf freq spec (Num fmin) (Num fmax) = Raise (ValueError msg).
Proof.
  intros Hf. unfold generate_pdf, pdf_counts, ybins.
  destruct spec as [|p spec]; [by eexists|].
  unfold np_nanmin, np_nanmax. rewrite !bind_Ok.
  unfold np_histogram2d. case_decide; [by eexists|].
  rewrite xbins_decreasing by done. by eexists.
Qed.



(** ** The builder divides each row by its own count *)

Lemma pdf_counts_counts freq spec fmin fmax C xe ye :
  pdf_counts freq spec fmin fmax = Ok (C, xe, ye) -> Forall count_row C.
Proof.
  unfold pdf_counts. destruct (ybins spec) as [yb|]; [|done]. simpl.
  by intros (? & _)%np_histogram2d_counts.
Qed.

Lemma pdf_counts_shape freq spec fmin fmax C xe ye :
  pdf_counts freq spec fmin fmax = Ok (C, xe, ye) ->
  length xe = 100 /\ length ye = 200 /\ length C = 99 /\
  Forall (fun row => length row = 199) C.
Proof.
  unfold pdf_counts. destruct (ybins spec) as [yb|] eqn:Hyb; [|done].
  rewrite bind_Ok. intros (_ & -> & -> & HC & Hrows)%np_histogram2d_counts.
  apply ybins_length in Hyb. unfold xbins in *.
  rewrite np_logspace_length, ?Hyb in *. by split_and!.
Qed.

(** On a row of counts [np.nansum] is the plain sum. *)
Lemma normalize_rows_counts C :
  Forall count_row C ->
  normalize_rows C = map (fun counts => map (fun c => fdiv c (np_sum counts)) counts) C.
Proof.
  intros HC. unfold normalize_rows. apply Forall_fmap_ext_1.
  eapply Forall_impl; [done|]. intros row [ns ->].
  by rewrite np_nansum_of_nat.
Qed.

Lemma normalized_row_sum (counts : list npfloat) :
  count_row counts -> np_sum counts ≠ Num 0 ->
  np_sum (map (fun c => fdiv c (np_sum counts)) counts) = Num 1.
Proof.
  intros [ns ->]. rewrite np_sum_of_nat. unfold of_nat. intros Hne.
  assert (INR (foldr Nat.add 0 ns) ≠ 0%R) as Ht by congruence.
  rewrite <- list_fmap_compose.
  change (np_sum (map ((fun c => fdiv (Num c) (Num (INR (foldr Nat.add 0 ns)))) ∘ INR) ns) = Num 1).
  rewrite list_fmap_compose, np_sum_div_num by done.
  rewrite INR_foldr_add. f_equal. by field.
Qed.

(** A row without a sample is [0/0] in every bin. *)
Lemma normalized_row_empty (counts : list npfloat) :
  count_row counts -> np_sum counts = Num 0 ->
  Forall (fun p => p = NaN) (map (fun c => fdiv c (np_sum counts)) counts).
Proof.
  intros [ns ->]. rewrite np_sum_of_nat. unfold of_nat. intros [= Hz].
  change 0%R with (INR 0) in Hz. apply INR_eq in Hz.
  rewrite Hz. apply Forall_fmap, Forall_fmap, Forall_forall. intros n Hn.
  assert (n = 0) as ->.
  { clear -Hz Hn. induction Hn as [n ns|n m ns _ IH]; simpl in Hz; [lia|]. apply IH. lia. }
  simpl. by rewrite !decide_True.
Qed.

(** Every row of a histogram of the builder sums to 1 or to [nan]: never
    to [0.0]. *)
Lemma normalized_row_sum_nonzero (counts : list npfloat) :
  count_row counts -> counts ≠ [] ->
  np_sum (map (fun c => fdiv c (np_sum counts)) counts) ≠ Num 0.
Proof.
  intros Hc Hne. destruct (decide (np_sum counts = Num 0)) as [Hz|Hnz].
  - pose proof (normalized_row_empty counts Hc Hz) as Hall.
    rewrite np_sum_nan; [done|]. destruct counts as [|c counts]; [done|].
    rewrite Forall_forall in Hall. apply list_elem_of_fmap. exists c.
    split; [|by left]. symmetry. apply Hall, list_elem_of_fmap.
    exists c. split; [done|by left].
  - rewrite normalized_row_sum by done. intros [= ?]. lra.
Qed.

(** C1.  Whenever [ppsd] returns a histogram [H], [H] is the matrix of bin
    counts [C] of [np.histogram2d] with each row divided by that row's own
    total, and every row whose total count is not zero sums to 1.  (The
    arithmetic of the model is exact, so the sum is 1 itself.) *)
Theorem ppsd_rows_sum_to_one detrend periodogram data fs fmin fmax h H xm ym h' :
  ppsd detrend periodogram data fs fmin fmax h = (Ok (H, xm, ym), h') ->
  exists freq spec C xe ye,
    periodogram_pairs detrend periodogram data fs h = (Ok (freq, spec), h') /\
    pdf_counts freq spec fmin fmax = Ok (C, xe, ye) /\
    H = map (fun counts => map (fun c => fdiv c (np_sum counts)) counts) C /\
    Forall2 (fun counts row => np_sum counts ≠ Num 0 -> np_sum row = Num 1) C H.
Proof.
  intros (freq & spec & Hpairs & Hpdf)%ppsd_inv.
  apply generate_pdf_inv in Hpdf as (C & xe & ye & HC & -> & -> & ->).
  exists freq, spec, C, xe, ye.
  pose proof (pdf_counts_counts _ _ _ _ _ _ _ HC) as Hrows.
  rewrite normalize_rows_counts by done. split_and!; try done.
  apply Forall2_fmap_r, Forall_Forall2_diag.
  eapply Forall_impl; [done|]. intros counts Hc Hne. by apply normalized_row_sum.
Qed.

(** C1 at a concrete input: [ppsd] returns on the sample heap. *)
Lemma ppsd_rows_sum_to_one_witness :
  exists H xm ym h',
    ppsd sample_detrend sample_periodogram sample_view (Num 1) (Num 1) (Num 10) sample_heap
    = (Ok (H, xm, ym), h') /\
    exists freq spec C xe ye,
      periodogram_pairs sample_detrend sample_periodogram sample_view (Num 1) sample_heap
      = (Ok (freq, spec), h') /\
      pdf_counts freq spec (Num 1) (Num 10) = Ok (C, xe, ye) /\
      H = map (fun counts => map (fun c => fdiv c (np_sum counts)) counts) C /\
      Forall2 (fun counts row => np_sum counts ≠ Num 0 -> np_sum row = Num 1) C H.
Proof.
  destruct (generate_pdf_returns 1 10 1 2 [Num 1; Num 2] [Num 1; Num 2])
    as [[[H xm] ym] Hpdf];
    [lra|done|apply least_sample_pair; lra|apply greatest_sample_pair; lra|lra|].
  assert (ppsd sample_detrend sample_periodogram sample_view (Num 1) (Num 1) (Num 10)
            sample_heap
          = (Ok (H, xm, ym), write_view sample_view (demean [[Num 1; Num 3]]) sample_heap))
    as Hppsd by by rewrite ppsd_sample, Hpdf.
  exists H, xm, ym, (write_view sample_view (demean [[Num 1; Num 3]]) sample_heap).
  split; [exact Hppsd|].
  exact (ppsd_rows_sum_to_one _ _ _ _ _ _ _ _ _ _ _ Hppsd).
Defined.

Lemma last_elem_of {A} (l : list A) (d : A) : l ≠ [] -> List.last l d ∈ l.
Proof.
  induction l as [|x [|y l] IH]; intros Hne; [done|by left|].
  right. by apply IH.
Qed.

Lemma bin_number_first_edge (e0 : R) (rest : list npfloat) :
  rest ≠ [] -> Forall (fun e => flt (Num e0) e = true) rest ->
  bin_number (Num e0 :: rest) (Num e0) = 1.
Proof.
  intros Hne Hrest. unfold bin_number, np_searchsorted_right.
  assert (filter (fun e => sort_le e (Num e0) = true) rest = []) as Hnone.
  { clear Hne. induction Hrest as [|e rest He _ IH]; [done|].
    rewrite filter_cons_False; [done|].
    destruct e as [r| | |]; try done. simpl in *.
    apply bool_decide_eq_true in He. rewrite fle_num.
    intros Hle%bool_decide_eq_true. lra. }
  rewrite filter_cons_True by (simpl; rewrite fle_num; apply bool_decide_eq_true; lra).
  rewrite Hnone.
  assert (feq (Num e0) (List.last (Num e0 :: rest) NaN) = false) as ->; [|done].
  destruct rest as [|e1 rest]; [done|].
  change (List.last (Num e0 :: e1 :: rest) NaN) with (List.last (e1 :: rest) NaN).
  assert (List.last (e1 :: rest) NaN ∈ e1 :: rest) as Hin.
  { by apply last_elem_of. }
  rewrite Forall_forall in Hrest. apply Hrest in Hin.
  destruct (List.last (e1 :: rest) NaN) as [r| | |]; try done. simpl in *.
  apply bool_decide_eq_true in Hin. apply bool_decide_eq_false. lra.
Qed.

Lemma bin_counts_first_row (fx fy : R) (x y rx ry : list npfloat) :
  rx ≠ [] -> Forall (fun e => flt (Num fx) e = true) rx ->
  ry ≠ [] -> Forall (fun e => flt (Num fy) e = true) ry ->
  exists row,
    bin_counts (Num fx :: x) (Num fy :: y) (Num fx :: rx) (Num fy :: ry) !! 0 = Some row /\
    count_row row /\ np_sum row ≠ Num 0.
Proof.
  intros Hrx Hx Hry Hy. unfold bin_counts.
  destruct rx as [|ex rx]; [done|]. destruct ry as [|ey ry]; [done|].
  cbn [length Nat.sub seq map zip_with].
  rewrite !bin_number_first_edge by done.
  eexists. split; [reflexivity|].
  set (idx := zip _ _).
  assert (forall l, map (fun j => of_nat (count_in_bin ((1, 1) :: idx) 0 j)) l
                    = map of_nat (map (count_in_bin ((1, 1) :: idx) 0) l)) as Hmap
    by (intros; by rewrite <- list_fmap_compose).
  rewrite <- (fmap_cons (fun j => of_nat (count_in_bin ((1, 1) :: idx) 0 j)) 0).
  rewrite Hmap. split; [by eexists|].
  rewrite np_sum_of_nat. apply of_nat_nonzero.
  cbn [map foldr]. unfold count_in_bin at 1.
  rewrite filter_cons_True by done. simpl. lia.
Qed.

(** For the sample input the first frequency bin is not empty, and its row
    of the histogram sums to 1. *)
Lemma ppsd_sample_first_row :
  exists H xm ym h',
    ppsd sample_detrend sample_periodogram sample_view (Num 1) (Num 1) (Num 10) sample_heap
    = (Ok (H, xm, ym), h') /\
    exists row, H !! 0 = Some row /\ np_sum row = Num 1.
Proof.
  pose proof (pdf_counts_returns 1 10 1 2 [Num 1; Num 2] [Num 1; Num 2]) as Hpdf.
  destruct (log_spaced_cons 1 10 100) as (rx & Hxe & Hrx & Hx); [lra|lia|].
  destruct (log_spaced_cons 1 2 200) as (ry & Hye & Hry & Hy); [lra|lia|].
  rewrite Hxe, Hye in Hpdf.
  destruct (bin_counts_first_row 1 1 [Num 2] [Num 2] rx ry) as (row & Hrow & Hc & Hne);
    [done..|].
  eexists _, _, _, _. split.
  - rewrite ppsd_sample. unfold generate_pdf.
    rewrite Hpdf; [|lra|done|apply least_sample_pair; lra|apply greatest_sample_pair; lra|lra].
    by rewrite bind_Ok.
  - unfold normalize_rows. rewrite list_lookup_fmap, Hrow. eexists. split; [done|].
    destruct Hc as [ns ->]. rewrite np_nansum_of_nat.
    apply normalized_row_sum; [by eexists|done].
Qed.

(** ** Power samples that are [nan] *)

Lemma app_nonempty_middle {A} (s1 sc s2 : list A) : s1 ++ s2 ≠ [] -> s1 ++ sc ++ s2 ≠ [].
Proof. destruct s1, sc, s2; naive_solver. Qed.

Lemma np_nanmin_nan_block s1 sc s2 :
  Forall (fun p => p = NaN) sc -> s1 ++ s2 ≠ [] ->
  np_nanmin (s1 ++ sc ++ s2) = np_nanmin (s1 ++ s2).
Proof.
  intros Hall Hne.
  rewrite !np_nanmin_foldl by (done || by apply app_nonempty_middle).
  by rewrite !foldl_app, (foldl_fmin_skip _ sc).
Qed.

Lemma np_nanmax_nan_block s1 sc s2 :
  Forall (fun p => p = NaN) sc -> s1 ++ s2 ≠ [] ->
  np_nanmax (s1 ++ sc ++ s2) = np_nanmax (s1 ++ s2).
Proof.
  intros Hall Hne.
  rewrite !np_nanmax_foldl by (done || by apply app_nonempty_middle).
  by rewrite !foldl_app, (foldl_fmax_skip _ sc).
Qed.

Lemma ybins_nan_block s1 sc s2 :
  Forall (fun p => p = NaN) sc -> s1 ++ s2 ≠ [] ->
  ybins (s1 ++ sc ++ s2) = ybins (s1 ++ s2).
Proof.
  intros Hall Hne. unfold ybins.
  by rewrite np_nanmin_nan_block, np_nanmax_nan_block.
Qed.

(** A [nan] sample is beyond every edge: it lands in the upper outlier bin. *)
Lemma bin_number_nan edges : bin_number edges NaN = length edges.
Proof.
  unfold bin_number, np_searchsorted_right.
  replace (feq NaN (List.last edges NaN)) with false by done.
  induction edges as [|e edges IH]; [done|].
  rewrite filter_cons_True by by destruct e. simpl. by rewrite IH.
Qed.

Lemma count_in_bin_app idx1 idx2 i j :
  count_in_bin (idx1 ++ idx2) i j = count_in_bin idx1 i j + count_in_bin idx2 i j.
Proof. unfold count_in_bin. by rewrite filter_app, length_app. Qed.

Lemma count_in_bin_outliers (fs : list nat) n i j :
  j < n - 1 -> count_in_bin (zip fs (replicate (length fs) n)) i j = 0.
Proof.
  intros Hj. unfold count_in_bin.
  induction fs as [|f fs IH]; [done|]. simpl.
  rewrite filter_cons_False; [done|]. intros [= _ Hn]. lia.
Qed.

Lemma zip_app3 {A B} (a1 a2 a3 : list A) (b1 b2 b3 : list B) :
  length a1 = length b1 -> length a2 = length b2 ->
  zip (a1 ++ a2 ++ a3) (b1 ++ b2 ++ b3) = zip a1 b1 ++ zip a2 b2 ++ zip a3 b3.
Proof. intros H1 H2. by rewrite !zip_with_app. Qed.

Lemma np_histogram2d_nan_block f1 fc f2 s1 sc s2 xe ye :
  length f1 = length s1 -> length fc = length sc ->
  Forall (fun p => p = NaN) sc ->
  np_histogram2d (f1 ++ fc ++ f2) (s1 ++ sc ++ s2) xe ye
  = np_histogram2d (f1 ++ f2) (s1 ++ s2) xe ye.
Proof.
  intros H1 Hc Hall. unfold np_histogram2d.
  rewrite !length_app.
  destruct (decide (length f1 + (length fc + length f2)
                    ≠ length s1 + (length sc + length s2))) as [Hne|Heq].
  { by rewrite decide_True by lia. }
  rewrite decide_False by lia.
  repeat case_match; try done. do 3 f_equal. unfold bin_counts.
  apply list_fmap_ext. intros _ i _. apply list_fmap_ext. intros k j Hj.
  apply lookup_seq in Hj as [-> Hj]. f_equal.
  rewrite !map_app.
  rewrite zip_app3, zip_with_app by (by rewrite !length_map).
  rewrite !count_in_bin_app.
  assert (map (bin_number ye) sc = replicate (length (map (bin_number xe) fc)) (length ye))
    as ->.
  { rewrite length_map, Hc. clear -Hall.
    induction Hall as [|p sc -> _ IH]; [done|]. simpl. by rewrite bin_number_nan, IH. }
  rewrite count_in_bin_outliers by done. lia.
Qed.

(** C6, as the code has it.  A channel whose power samples are all [nan]
    changes nothing, as long as it is not the whole input: the builder
    raises only if it raises without the channel, and returns the same
    histogram and bin centres otherwise. *)
Theorem generate_pdf_nan_channel (f1 fc f2 s1 sc s2 : list npfloat) fmin fmax :
  length f1 = length s1 -> length fc = length sc ->
  Forall (fun p => p = NaN) sc ->
  s1 ++ s2 ≠ [] ->
  generate_pdf (f1 ++ fc ++ f2) (s1 ++ sc ++ s2) fmin fmax
  = generate_pdf (f1 ++ f2) (s1 ++ s2) fmin fmax.
Proof.
  intros H1 Hc Hall Hne. unfold generate_pdf, pdf_counts.
  rewrite ybins_nan_block by done.
  destruct (ybins (s1 ++ s2)) as [yb|e]; [|done]. rewrite !bind_Ok.
  by rewrite np_histogram2d_nan_block.
Qed.

(** C6 at a concrete input: one channel of power 2 and one of power [nan]. *)
Lemma generate_pdf_nan_channel_witness :
  generate_pdf ([Num 1] ++ [Num 1] ++ []) ([Num 2] ++ [NaN] ++ []) (Num 1) (Num 10)
  = generate_pdf ([Num 1] ++ []) ([Num 2] ++ []) (Num 1) (Num 10).
Proof.
  apply generate_pdf_nan_channel.
  - reflexivity.
  - reflexivity.
  - by repeat constructor.
  - discriminate.
Defined.

(** Counterexample to C6 as stated.  When the [nan] channel is the whole
    input the builder returns (a histogram of [nan]s), but it raises on the
    input without that channel, which is empty. *)
Lemma generate_pdf_only_nan_channel :
  (exists r, generate_pdf [Num 1] [NaN] (Num 1) (Num 10) = Ok r) /\
  generate_pdf [] [] (Num 1) (Num 10)
  = Raise (ValueError "zero-size array to reduction operation fmin which has no identity").
Proof.
  split; [|done].
  unfold generate_pdf, pdf_counts.
  rewrite ybins_all_nan, bind_Ok by by repeat constructor.
  rewrite xbins_log_spaced by lra.
  destruct (np_histogram2d_returns [Num 1] [NaN] (log_spaced 1 10 100)
              (np_logspace NaN NaN 200)) as [C ->]; [done|..].
  - apply log_spaced_increasing; [lra|lia].
  - apply any_decreasing_nan, np_logspace_nan.
  - by eexists.
Qed.

(** ** The histogram does not depend on the order of the samples *)

Lemma zip_fmap_both {A B C D} (f : A -> C) (g : B -> D) (l : list A) (k : list B) :
  zip (f <$> l) (g <$> k) = prod_map f g <$> zip l k.
Proof.
  revert k. induction l as [|x l IH]; intros [|y k]; simpl; try done.
  by rewrite IH.
Qed.

Lemma bin_counts_perm x y x' y' xe ye :
  zip x y ≡ₚ zip x' y' -> bin_counts x y xe ye = bin_counts x' y' xe ye.
Proof.
  intros Hp. unfold bin_counts.
  apply list_fmap_ext. intros _ i _. apply list_fmap_ext. intros _ j _. f_equal.
  unfold count_in_bin. by rewrite !zip_fmap_both, Hp.
Qed.

(** X1.  The pairs of a frequency and a power may come in any order: the
    builder returns the same histogram and bin centres, or raises the same
    exception. *)
Theorem generate_pdf_order_independent (freq spec freq' spec' : list npfloat) fmin fmax :
  length freq = length spec -> length freq' = length spec' ->
  zip freq spec ≡ₚ zip freq' spec' ->
  generate_pdf freq spec fmin fmax = generate_pdf freq' spec' fmin fmax.
Proof.
  intros Hlen Hlen' Hp.
  assert (spec ≡ₚ spec') as Hspec.
  { rewrite <- (snd_zip freq spec), <- (snd_zip freq' spec') by lia. by rewrite Hp. }
  unfold generate_pdf, pdf_counts, ybins.
  rewrite (np_nanmin_perm _ _ Hspec), (np_nanmax_perm _ _ Hspec).
  destruct (np_nanmin spec') as [lo|]; [|done].
  destruct (np_nanmax spec') as [hi|]; [|done]. rewrite !bind_Ok.
  unfold np_histogram2d.
  rewrite !decide_False by (by intros []).
  by rewrite (bin_counts_perm _ _ _ _ _ _ Hp).
Qed.

(** X1 at a concrete input: two pairs, swapped. *)
Lemma generate_pdf_order_independent_witness :
  generate_pdf [Num 1; Num 2] [Num 3; Num 4] (Num 1) (Num 10)
  = generate_pdf [Num 2; Num 1] [Num 4; Num 3] (Num 1) (Num 10).
Proof.
  apply generate_pdf_order_independent.
  - reflexivity.
  - reflexivity.
  - apply perm_swap.
Defined.

(** ** The weighted statistics reducer *)

Lemma zip_with_fmul_comm (a w : list npfloat) : zip_with fmul a w = zip_with fmul w a.
Proof.
  revert w. induction a as [|x a IH]; intros [|y w]; simpl; try done.
  by rewrite fmul_comm, IH.
Qed.

Lemma np_average_weighted (a w : list npfloat) :
  length a = length w -> np_sum w ≠ Num 0 ->
  np_average a w = Ok (weighted_average w a).
Proof.
  intros Hlen Hne. unfold np_average, weighted_average.
  rewrite decide_False by (by intros []).
  apply feq_zero_false in Hne as ->. by rewrite zip_with_fmul_comm.
Qed.

Lemma np_average_zero (a w : list npfloat) :
  length a = length w -> np_sum w = Num 0 ->
  np_average a w = Raise (ZeroDivisionError "Weights sum to zero, can't be normalized").
Proof.
  intros Hlen Hz. unfold np_average.
  rewrite decide_False by (by intros []).
  by apply feq_zero_true in Hz as ->.
Qed.

Lemma psd_stats_body_usable H logym mean variance ix row :
  H !! ix = Some row -> usable_row logym row ->
  psd_stats_body H logym (mean, variance) ix
  = Ok (<[ix := log_mean row logym]> mean,
        <[ix := weighted_average row
                  (map (fun y => fsquare (fsub y (<[ix := log_mean row logym]> mean !!! ix)))
                       logym)]> variance).
Proof.
  intros Hrow [Hlen Hne]. unfold psd_stats_body.
  rewrite (row_at_Some _ _ _ Hrow), bind_Ok.
  rewrite np_average_weighted, !bind_Ok by done.
  rewrite np_average_weighted, bind_Ok by (by rewrite ?length_map).
  done.
Qed.

Lemma insert_middle {A} (l1 l2 : list A) (x y : A) (n : nat) :
  length l1 = n -> <[n := y]> (l1 ++ x :: l2) = l1 ++ y :: l2.
Proof. intros <-. by rewrite insert_app_r_alt, Nat.sub_diag by lia. Qed.

Lemma psd_stats_loop logym Hdone rest mdone vdone n :
  length Hdone = n -> length mdone = n -> length vdone = n ->
  Forall (usable_row logym) rest ->
  for_each (psd_stats_body (Hdone ++ rest) logym)
           (seq n (length rest))
           (mdone ++ replicate (length rest) (Num 0),
            vdone ++ replicate (length rest) (Num 0))
  = Ok (mdone ++ map (fun row => log_mean row logym) rest,
        vdone ++ map (fun row => log_variance row logym) rest).
Proof.
  intros HH Hm Hv Hrest. revert Hdone mdone vdone n HH Hm Hv.
  induction Hrest as [|row rest Hrow _ IH]; intros Hdone mdone vdone n HH Hm Hv; [done|].
  cbn [length seq for_each replicate].
  rewrite (psd_stats_body_usable _ _ _ _ _ row) by (done || by apply list_lookup_middle).
  rewrite bind_Ok, !insert_middle by done.
  rewrite list_lookup_total_middle by done.
  fold (log_variance row logym).
  rewrite (cons_middle row Hdone rest), !(cons_middle _ mdone), !(cons_middle _ vdone).
  rewrite !app_assoc.
  rewrite (IH _ _ _ (S n)) by (rewrite !length_app; simpl; lia).
  by rewrite <- !app_assoc.
Qed.

Lemma psd_stats_usable (H : matrix) (xm ym : list npfloat) :
  length H = length xm ->
  Forall (usable_row (map np_log10 ym)) H ->
  psd_stats H xm ym
  = Ok (xm,
        map (fun row => np_power10 (log_mean row (map np_log10 ym))) H,
        map (fun row => log_variance row (map np_log10 ym)) H).
Proof.
  intros Hlen Hrows. unfold psd_stats. rewrite <- Hlen.
  pose proof (psd_stats_loop (map np_log10 ym) [] H [] [] 0 eq_refl eq_refl eq_refl Hrows)
    as Hloop.
  simpl in Hloop. rewrite Hloop, bind_Ok. by rewrite <- list_fmap_compose.
Qed.

Lemma usable_rows (H : matrix) (ym : list npfloat) :
  Forall (fun row => length row = length ym) H ->
  Forall (fun row => np_sum row ≠ Num 0) H ->
  Forall (usable_row (map np_log10 ym)) H.
Proof.
  intros Hlen Hne. apply Forall_and. split; [|done].
  eapply Forall_impl; [exact Hlen|]. intros row Hrow. simpl. by rewrite length_map.
Qed.

(** C4.  For a histogram whose rows all have a weight sum other than zero
    (and the shape of its axes), [psd_stats] returns [xm], for each
    frequency bin 10 to the power of the weighted average of [log10(ym)]
    under the weights of its row, and the weighted average of the squared
    deviations of [log10(ym)] from that average: the variance stays in the
    log10 domain. *)
Theorem psd_stats_weighted_moments (H : matrix) (xm ym : list npfloat) :
  length H = length xm ->
  Forall (fun row => length row = length ym) H ->
  Forall (fun row => np_sum row ≠ Num 0) H ->
  psd_stats H xm ym
  = Ok (xm,
        map (fun row => np_power10 (log_mean row (map np_log10 ym))) H,
        map (fun row => log_variance row (map np_log10 ym)) H).
Proof.
  intros Hlen Hshape Hne. apply psd_stats_usable; [done|]. by apply usable_rows.
Qed.

(** C4 at a concrete input: one row of weights 1 and 3. *)
Lemma psd_stats_weighted_moments_witness :
  psd_stats [[Num 1; Num 3]] [Num 1] [Num 1; Num 10]
  = Ok ([Num 1],
        map (fun row => np_power10 (log_mean row (map np_log10 [Num 1; Num 10])))
            [[Num 1; Num 3]],
        map (fun row => log_variance row (map np_log10 [Num 1; Num 10]))
            [[Num 1; Num 3]]).
Proof.
  apply psd_stats_weighted_moments.
  - reflexivity.
  - by repeat constructor.
  - repeat constructor. rewrite np_sum_pair. intros [= Hs]. lra.
Defined.

Lemma weighted_average_nan (w a : list npfloat) : NaN ∈ w -> weighted_average w a = NaN.
Proof.
  intros Hnan. unfold weighted_average. rewrite (np_sum_nan w) by done.
  apply fdiv_nan_r.
Qed.

(** C2, as the code has it.  When no row of [H] has weights that sum to
    [0.0], [psd_stats] does not raise and returns a mean and a variance per
    entry of [xm]; at the index of a row that holds a [nan] (the rows [ppsd]
    leaves for a frequency bin without samples are [0/0] throughout) both are
    [nan]. *)
Theorem psd_stats_nan_rows (H : matrix) (xm ym : list npfloat) :
  length H = length xm ->
  Forall (fun row => length row = length ym) H ->
  Forall (fun row => np_sum row ≠ Num 0) H ->
  exists mean variance,
    psd_stats H xm ym = Ok (xm, mean, variance) /\
    length mean = length xm /\ length variance = length xm /\
    forall i row, H !! i = Some row -> NaN ∈ row ->
      mean !! i = Some NaN /\ variance !! i = Some NaN.
Proof.
  intros Hlen Hshape Hne. eexists _, _. split_and!.
  - apply psd_stats_usable; [done|]. by apply usable_rows.
  - by rewrite length_map.
  - by rewrite length_map.
  - intros i row Hrow Hnan. rewrite !list_lookup_fmap, Hrow. simpl.
    unfold log_variance, log_mean. by rewrite !weighted_average_nan.
Qed.

(** C2 at a concrete input: one row of [nan]s. *)
Lemma psd_stats_nan_rows_witness :
  exists mean variance,
    psd_stats [[NaN; NaN]] [Num 1] [Num 1; Num 10] = Ok ([Num 1], mean, variance) /\
    length mean = 1 /\ length variance = 1 /\
    forall i row, [[NaN; NaN]] !! i = Some row -> NaN ∈ row ->
      mean !! i = Some NaN /\ variance !! i = Some NaN.
Proof.
  apply (psd_stats_nan_rows [[NaN; NaN]] [Num 1] [Num 1; Num 10]).
  - reflexivity.
  - by repeat constructor.
  - by repeat constructor.
Defined.

Lemma psd_stats_body_zero H logym mean variance ix row :
  H !! ix = Some row -> length row = length logym -> np_sum row = Num 0 ->
  psd_stats_body H logym (mean, variance) ix
  = Raise (ZeroDivisionError "Weights sum to zero, can't be normalized").
Proof.
  intros Hrow Hlen Hz. unfold psd_stats_body.
  rewrite (row_at_Some _ _ _ Hrow), bind_Ok. by rewrite np_average_zero.
Qed.

Lemma psd_stats_loop_zero logym Hdone rest n mv :
  length Hdone = n ->
  Forall (fun row => length row = length logym) rest ->
  Exists (fun row => np_sum row = Num 0) rest ->
  for_each (psd_stats_body (Hdone ++ rest) logym) (seq n (length rest)) mv
  = Raise (ZeroDivisionError "Weights sum to zero, can't be normalized").
Proof.
  intros Hn Hshape Hzero. revert Hdone n mv Hn.
  induction Hshape as [|row rest Hlen Hshape IH]; intros Hdone n [mean variance] Hn.
  { by apply Exists_nil in Hzero. }
  cbn [length seq for_each].
  assert ((Hdone ++ row :: rest) !! n = Some row) as Hrow
    by (subst n; apply list_lookup_middle; done).
  destruct (decide (np_sum row = Num 0)) as [Hz|Hnz].
  - by rewrite (psd_stats_body_zero _ _ _ _ _ row).
  - rewrite (psd_stats_body_usable _ _ _ _ _ row) by done. rewrite bind_Ok.
    apply Exists_cons in Hzero as [?|Hzero]; [done|].
    rewrite (cons_middle row Hdone rest), app_assoc.
    apply IH; [done|]. rewrite length_app. simpl. lia.
Qed.

(** A row whose weights sum to [0.0] makes [psd_stats] raise: [np.average]
    refuses to normalise by zero. *)
Lemma psd_stats_zero_row (H : matrix) (xm ym : list npfloat) :
  length H = length xm ->
  Forall (fun row => length row = length ym) H ->
  Exists (fun row => np_sum row = Num 0) H ->
  psd_stats H xm ym
  = Raise (ZeroDivisionError "Weights sum to zero, can't be normalized").
Proof.
  intros Hlen Hshape Hzero. unfold psd_stats. rewrite <- Hlen.
  pose proof (psd_stats_loop_zero (map np_log10 ym) [] H 0
                (replicate (length H) (Num 0), replicate (length H) (Num 0)) eq_refl)
    as Hloop.
  simpl in Hloop. rewrite Hloop; [done| |done].
  eapply Forall_impl; [exact Hshape|]. intros row Hrow. simpl. by rewrite length_map.
Qed.

(** Counterexample to C2 as stated.  The weights of the row [0, 0] sum to
    zero, and [psd_stats] raises [ZeroDivisionError]. *)
Lemma psd_stats_zero_row_raises :
  np_sum [Num 0; Num 0] = Num 0 /\
  psd_stats [[Num 0; Num 0]] [Num 1] [Num 1; Num 10]
  = Raise (ZeroDivisionError "Weights sum to zero, can't be normalized").
Proof.
  assert (np_sum [Num 0; Num 0] = Num 0) as Hz.
  { unfold np_sum. simpl. f_equal. lra. }
  split; [done|].
  unfold psd_stats. cbn [length seq for_each replicate].
  unfold psd_stats_body. rewrite (row_at_Some _ 0 [Num 0; Num 0]), bind_Ok by done.
  by rewrite np_average_zero.
Qed.

(** ** The reducer on the histograms of the builder *)

Lemma bin_centers_length e : length (bin_centers e) = length e - 1.
Proof.
  unfold bin_centers. rewrite length_zip_with, removelast_firstn_len, length_take.
  destruct e; simpl; lia.
Qed.

Lemma generate_pdf_shape freq spec fmin fmax H xm ym :
  generate_pdf freq spec fmin fmax = Ok (H, xm, ym) ->
  length H = 99 /\ length xm = 99 /\ length ym = 199 /\
  Forall (fun row => length row = 199) H /\
  Forall (fun row => np_sum row ≠ Num 0) H.
Proof.
  intros (C & xe & ye & HC & -> & -> & ->)%generate_pdf_inv.
  pose proof (pdf_counts_counts _ _ _ _ _ _ _ HC) as Hcounts.
  apply pdf_counts_shape in HC as (Hxe & Hye & HlenC & Hrows).
  rewrite normalize_rows_counts by done.
  rewrite !bin_centers_length, length_map, Hxe, Hye.
  split_and!; try done.
  - apply Forall_fmap. eapply Forall_impl; [exact Hrows|].
    intros row Hrow. simpl. by rewrite length_map.
  - apply Forall_fmap. rewrite Forall_forall in Hcounts, Hrows.
    apply Forall_forall. intros row Hin. simpl.
    apply normalized_row_sum_nonzero; [by apply Hcounts|].
    apply Hrows in Hin. by destruct row.
Qed.

(** X2.  On a histogram returned by the builder [psd_stats] does not raise:
    a frequency bin without samples is a row of [nan], whose weights do not
    sum to [0.0], and its mean and variance are [nan]. *)
Theorem psd_stats_after_generate_pdf freq spec fmin fmax H xm ym :
  generate_pdf freq spec fmin fmax = Ok (H, xm, ym) ->
  exists mean variance,
    psd_stats H xm ym = Ok (xm, mean, variance) /\
    length mean = 99 /\ length variance = 99 /\
    forall i row, H !! i = Some row -> NaN ∈ row ->
      mean !! i = Some NaN /\ variance !! i = Some NaN.
Proof.
  intros (HlenH & Hxm & Hym & Hrows & Hsums)%generate_pdf_shape.
  eexists _, _. split_and!.
  - apply psd_stats_usable; [congruence|]. apply usable_rows; [|done].
    eapply Forall_impl; [exact Hrows|]. intros row Hrow. simpl. congruence.
  - by rewrite length_map.
  - by rewrite length_map.
  - intros i row Hrow Hnan. rewrite !list_lookup_fmap, Hrow. simpl.
    unfold log_variance, log_mean. by rewrite !weighted_average_nan.
Qed.

(** X2 at a concrete input. *)
Lemma psd_stats_after_generate_pdf_witness :
  exists H xm ym,
    generate_pdf [Num 1; Num 2] [Num 1; Num 2] (Num 1) (Num 10) = Ok (H, xm, ym) /\
    exists mean variance,
      psd_stats H xm ym = Ok (xm, mean, variance) /\
      length mean = 99 /\ length variance = 99 /\
      forall i row, H !! i = Some row -> NaN ∈ row ->
        mean !! i = Some NaN /\ variance !! i = Some NaN.
Proof.
  destruct (generate_pdf_returns 1 10 1 2 [Num 1; Num 2] [Num 1; Num 2])
    as [[[H xm] ym] Hpdf];
    [lra|done|apply least_sample_pair; lra|apply greatest_sample_pair; lra|lra|].
  exists H, xm, ym. split; [exact Hpdf|].
  exact (psd_stats_after_generate_pdf _ _ _ _ _ _ _ Hpdf).
Defined.

(** ** All the mass in one power bin *)

Lemma zip_with_fmul_Num (ws rs : list R) :
  zip_with fmul (map Num ws) (map Num rs) = map Num (zip_with Rmult ws rs).
Proof.
  revert rs. induction ws as [|w ws IH]; intros [|r rs]; simpl; try done.
  by rewrite IH.
Qed.

Lemma insert_replicate_Num (n j : nat) (w : R) :
  <[j := Num w]> (replicate n (Num 0)) = map Num (<[j := w]> (replicate n 0%R)).
Proof. by rewrite list_fmap_insert, fmap_replicate. Qed.

(** A weight [w] at position [j] and zero elsewhere picks the [j]-th term. *)
Lemma one_hot_sum (rs : list R) (j : nat) (w r : R) :
  rs !! j = Some r ->
  foldr Rplus 0%R (zip_with Rmult (<[j := w]> (replicate (length rs) 0%R)) rs)
  = (w * r)%R.
Proof.
  revert j. induction rs as [|r0 rs IH]; intros j Hj; [done|].
  destruct j as [|j]; simpl in *.
  - injection Hj as ->.
    assert (foldr Rplus 0%R (zip_with Rmult (replicate (length rs) 0%R) rs) = 0%R) as ->;
      [|lra].
    clear. induction rs as [|r1 rs IH]; [done|]. simpl. rewrite IH. lra.
  - rewrite (IH _ Hj). lra.
Qed.

Lemma one_hot_total (n j : nat) (w : R) :
  j < n -> foldr Rplus 0%R (<[j := w]> (replicate n 0%R)) = w.
Proof.
  revert j. induction n as [|n IH]; intros j Hj; [lia|].
  destruct j as [|j]; simpl.
  - assert (foldr Rplus 0%R (replicate n 0%R) = 0%R) as ->; [|lra].
    clear. induction n as [|n IH]; [done|]. simpl. rewrite IH. lra.
  - rewrite IH by lia. lra.
Qed.

Lemma weighted_average_one_hot (rs : list R) (j : nat) (w r : R) :
  rs !! j = Some r -> w ≠ 0%R ->
  weighted_average (<[j := Num w]> (replicate (length rs) (Num 0))) (map Num rs)
  = Num r.
Proof.
  intros Hj Hw. unfold weighted_average.
  rewrite insert_replicate_Num, zip_with_fmul_Num, !np_sum_Num.
  rewrite (one_hot_sum _ _ _ _ Hj), one_hot_total by by eapply lookup_lt_Some.
  simpl. rewrite decide_False by done. f_equal. by field.
Qed.



(** ** The metadata adapter refuses an unknown format *)

(** C7.  For a machine name other than ['optodas'] and ['onyx'],
    [extract_metadata] raises [ValueError('Machine name not recognized')]
    at once: no file is opened, nothing is tried again. *)
Theorem extract_metadata_unknown_format (disk : filesystem) (h5file machine_name : string) :
  machine_name ≠ "optodas" -> machine_name ≠ "onyx" ->
  extract_metadata disk h5file machine_name
  = (Raise (ValueError "Machine name not recognized"), []).
Proof.
  intros Hoptodas Honyx. unfold extract_metadata.
  by rewrite !decide_False.
Qed.

(** C7 at a concrete input: the machine name ['febus']. *)
Lemma extract_metadata_unknown_format_witness :
  extract_metadata ∅ "20240510_000000.hdf5" "febus"
  = (Raise (ValueError "Machine name not recognized"), []).
Proof. apply extract_metadata_unknown_format; discriminate. Defined.

(** The recognised names do open the file. *)
Lemma extract_metadata_known_format (disk : filesystem) (h5file machine_name : string) :
  machine_name = "optodas" \/ machine_name = "onyx" ->
  (extract_metadata disk h5file machine_name).2 = [Opened h5file].
Proof.
  intros [-> | ->]; unfold extract_metadata, with_h5py_file; simpl;
    by destruct (disk !! h5file).
Qed.

(** ** The builder is a function of the contents of its input *)

Lemma periodogram_pairs_contents detrend periodogram data1 data2 fs h1 h2 :
  read_view data1 h1 = read_view data2 h2 ->
  (periodogram_pairs detrend periodogram data1 fs h1).1
  = (periodogram_pairs detrend periodogram data2 fs h2).1.
Proof.
  intros Heq. unfold periodogram_pairs. rewrite Heq.
  by destruct (read_view data2 h2).
Qed.

Lemma ppsd_contents detrend periodogram data1 data2 fs fmin fmax h1 h2 :
  read_view data1 h1 = read_view data2 h2 ->
  (ppsd detrend periodogram data1 fs fmin fmax h1).1
  = (ppsd detrend periodogram data2 fs fmin fmax h2).1.
Proof.
  intros Heq. unfold ppsd.
  pose proof (periodogram_pairs_contents detrend periodogram _ _ fs _ _ Heq) as Hp.
  destruct (periodogram_pairs _ _ data1 _ _), (periodogram_pairs _ _ data2 _ _).
  simpl in *. by subst.
Qed.

(** [ppsd] writes to the base array of its argument only. *)
Lemma periodogram_pairs_frame detrend periodogram data fs h addr :
  addr ≠ view_base data ->
  (periodogram_pairs detrend periodogram data fs h).2 !! addr = h !! addr.
Proof.
  intros Hne. unfold periodogram_pairs.
  destruct (read_view data h); [|done]. simpl.
  unfold write_view. by rewrite lookup_alter_ne.
Qed.

Lemma ppsd_heap detrend periodogram data fs fmin fmax h :
  (ppsd detrend periodogram data fs fmin fmax h).2
  = (periodogram_pairs detrend periodogram data fs h).2.
Proof. unfold ppsd. by destruct (periodogram_pairs _ _ _ _ _). Qed.

Lemma ppsd_frame detrend periodogram data fs fmin fmax h addr :
  addr ≠ view_base data ->
  (ppsd detrend periodogram data fs fmin fmax h).2 !! addr = h !! addr.
Proof. intros. rewrite ppsd_heap. by apply periodogram_pairs_frame. Qed.


(** ** The mean is removed in the caller's array *)

Lemma demean_length d : length (demean d) = length d.
Proof. unfold demean. by rewrite length_map. Qed.

(** Reading a view back after writing as many rows as it has. *)
Lemma rows_of_write (v : ndview) (m rows : matrix) :
  length rows = length (rows_of v m) ->
  rows_of v (take (view_start v) m ++ rows ++ drop (view_start v + length rows) m) = rows.
Proof.
  unfold rows_of. rewrite length_take, length_drop. intros Hlen.
  destruct (decide (view_start v <= length m)) as [Hs|Hs].
  - rewrite drop_app_length' by (rewrite length_take; lia).
    destruct (decide (length rows = view_stop v - view_start v)) as [Hn|Hn].
    + by rewrite <- Hn, take_app_length.
    + assert (length m <= view_start v + length rows) as Hm by lia.
      rewrite (drop_ge m _ Hm), app_nil_r. apply take_ge. lia.
  - assert (rows = []) as -> by (apply length_zero_iff_nil; lia).
    rewrite (take_ge m), (drop_ge m) by (simpl; lia). simpl. rewrite app_nil_r.
    rewrite (drop_ge m) by lia. apply take_nil.
Qed.

Lemma read_write_view (v : ndview) (rows d : matrix) (h : heap) :
  read_view v h = Some d -> length rows = length d ->
  read_view v (write_view v rows h) = Some rows.
Proof.
  unfold read_view, write_view. intros Hread Hlen.
  destruct (h !! view_base v) as [m|] eqn:Hm; [|done].
  simpl in Hread. injection Hread as <-.
  rewrite lookup_alter_eq, Hm. simpl. f_equal. by apply rows_of_write.
Qed.

Lemma np_mean_finite (row : list npfloat) (mu : R) :
  np_mean row = Num mu -> row ≠ [] -> Forall (fun x => isfinite x = true) row.
Proof.
  unfold np_mean. intros Hmean Hne.
  destruct (np_sum row) as [s| | |] eqn:Hs; try done.
  - by eapply np_sum_finite.
  - unfold of_nat in Hmean. simpl in Hmean. by case_decide.
  - unfold of_nat in Hmean. simpl in Hmean. by case_decide.
Qed.

(** A row whose mean is finite and not zero does not survive. *)
Lemma demean_row_changes (row : list npfloat) (mu : R) :
  row ≠ [] -> np_mean row = Num mu -> mu ≠ 0%R ->
  map (fun x => fsub x (np_mean row)) row ≠ row.
Proof.
  intros Hne Hmean Hmu.
  pose proof (np_mean_finite row mu Hmean Hne) as Hfin. rewrite Hmean.
  destruct row as [|x row]; [done|]. apply Forall_cons in Hfin as [Hx _].
  destruct x as [a| | |]; try done. simpl. intros [= Ha _]. lra.
Qed.

Lemma ppsd_demeans_heap detrend periodogram data fs fmin fmax h d :
  read_view data h = Some d ->
  (ppsd detrend periodogram data fs fmin fmax h).2 = write_view data (demean d) h /\
  read_view data (write_view data (demean d) h) = Some (demean d).
Proof.
  intros Hread. split.
  - rewrite ppsd_heap. unfold periodogram_pairs. by rewrite Hread.
  - eapply read_write_view; [done|]. apply demean_length.
Qed.


(** The sample channel [1, 3] has mean 2 and becomes [-1, 1]. *)
Lemma demean_sample : demean [[Num 1; Num 3]] = [[Num (-1); Num 1]].
Proof.
  unfold demean, np_mean, np_sum, of_nat, fsub. cbn [map foldr length fadd INR].
  unfold fdiv. rewrite decide_False by lra. cbn [fneg fadd].
  do 3 f_equal; [|f_equal]; f_equal; lra.
Qed.


(** ** The loop over the channel bins writes to [hour_data] *)

Section ProcessBin.

Variable sgn_detrend : matrix -> result matrix.
Variable sgn_periodogram : matrix -> npfloat -> result (list npfloat * matrix).
Variables (amp_type : string) (new_fs : npfloat) (half_bin : nat).

Lemma process_bin_heap hour_data chan h :
  amp_type ≠ "strain" ->
  (process_bin sgn_detrend sgn_periodogram amp_type new_fs half_bin hour_data chan h).2
  = (ppsd sgn_detrend sgn_periodogram
       (slice_rows hour_data (chan - half_bin) (chan + half_bin) h)
       new_fs (Num 2e-4) (Num 1e2) h).2.
Proof.
  intros Hamp. unfold process_bin. rewrite decide_False by done.
  by destruct (ppsd _ _ _ _ _ _ _).
Qed.


(** X27.  With [amp_type = 'strain'] the differences [np.diff(trs) * new_fs]
    are a new array: [ppsd] removes the means there, and [hour_data] is left
    as it was. *)
Theorem process_bin_strain_keeps_hour_data hour_data chan h :
  amp_type = "strain" -> is_Some (h !! hour_data) ->
  (process_bin sgn_detrend sgn_periodogram amp_type new_fs half_bin hour_data chan h).2
    !! hour_data
  = h !! hour_data.
Proof.
  intros Hamp Hin. unfold process_bin. rewrite decide_True by done.
  unfold alloc. set (addr := fresh (dom h)).
  assert (addr ≠ hour_data) as Hne.
  { intros Heq. apply (is_fresh (dom h)). fold addr. rewrite Heq.
    by apply elem_of_dom. }
  set (h1 := <[addr := _]> h).
  pose proof (ppsd_frame sgn_detrend sgn_periodogram (whole addr h1) new_fs
                (Num 2e-4) (Num 1e2) h1 hour_data) as Hframe.
  destruct (ppsd _ _ _ _ _ _ _) as [r h2]. simpl in *.
  rewrite Hframe by done. unfold h1. by rewrite lookup_insert_ne.
Qed.

End ProcessBin.

(** The bin centres of the run, from the far end of the cable to the near
    one. *)
Lemma ch_list_value : ch_list = [8101; 6101; 4101; 2101; 101].
Proof. reflexivity. Qed.

(** As configured ([amp_type = 'strain_rate'], [half_bin = 100]) each pass
    of the loop writes the demeaned channels of its bin to [hour_data]. *)
Lemma configured_pass_demeans_hour_data detrend periodogram new_fs hour_data chan h d :
  let trs := slice_rows hour_data (chan - Config.half_bin) (chan + Config.half_bin) h in
  read_view trs h = Some d ->
  (process_bin detrend periodogram Config.amp_type new_fs Config.half_bin
     hour_data chan h).2
  = write_view trs (demean d) h.
Proof.
  intros trs Hread.
  rewrite process_bin_heap by discriminate. fold trs.
  by destruct (ppsd_demeans_heap detrend periodogram trs new_fs
                 (Num 2e-4) (Num 1e2) h d Hread) as [-> _].
Qed.


(** ** The assembly follows the file names, not the workers *)

#[local] Instance string_le_total : Total string_le.
Proof. intros s1 s2. apply Stdlib.Strings.String.leb_total. Qed.

Lemma sort_file_list_sorted listing :
  Sorted string_le (sort_file_list listing) /\ sort_file_list listing ≡ₚ listing.
Proof.
  split; [apply (Sorted_merge_sort string_le)|apply merge_sort_Permutation].
Qed.

Section PoolMap.

Context {A B : Type} (f : A -> result B) (tasks : list A) (outs : list B).
Hypothesis Houts : Forall2 (fun x b => f x = Ok b) tasks outs.

Lemma slots_after_nil : slots_after [] outs = replicate (length tasks) None.
Proof using Houts.
  apply list_eq. intros i. unfold slots_after. rewrite list_lookup_imap.
  rewrite (Forall2_length _ _ _ Houts).
  destruct (outs !! i) as [b|] eqn:Hb; simpl.
  - symmetry. apply lookup_replicate_2. by eapply lookup_lt_Some.
  - symmetry. apply lookup_replicate_None. by apply lookup_ge_None.
Qed.

Lemma pool_fill_ok finished left i :
  i < length tasks ->
  pool_fill f tasks (MapResult (slots_after finished outs) None left) i
  = MapResult (slots_after (i :: finished) outs) None (left - 1).
Proof using Houts.
  intros Hi. unfold pool_fill.
  destruct (lookup_lt_is_Some_2 tasks i Hi) as [x Hx]. rewrite Hx.
  destruct (Forall2_lookup_l _ _ _ _ _ Houts Hx) as (b & Hb & ->). simpl.
  f_equal. apply list_eq. intros j. unfold slots_after.
  destruct (decide (j = i)) as [->|Hne].
  - rewrite list_lookup_insert_eq by (rewrite length_imap; by eapply lookup_lt_Some).
    rewrite list_lookup_imap, Hb. simpl. by rewrite decide_True by by left.
  - rewrite list_lookup_insert_ne by done. rewrite !list_lookup_imap.
    destruct (outs !! j) as [c|]; [|done]. simpl.
    destruct (decide (j ∈ finished)).
    + by rewrite decide_True by by right.
    + rewrite decide_False; [done|]. by intros [?|?]%elem_of_cons.
Qed.

Lemma pool_fill_all completion finished left :
  Forall (fun i => i < length tasks) completion ->
  foldl (pool_fill f tasks) (MapResult (slots_after finished outs) None left) completion
  = MapResult (slots_after (reverse completion ++ finished) outs) None
              (left - length completion).
Proof using Houts.
  intros Hvalid. revert finished left.
  induction Hvalid as [|i completion Hi _ IH]; intros finished left.
  - simpl. by rewrite Nat.sub_0_r.
  - cbn [foldl]. rewrite pool_fill_ok, IH by done.
    rewrite reverse_cons, <- app_assoc. simpl. f_equal. lia.
Qed.

Lemma slots_after_all finished :
  (forall i, i < length outs -> i ∈ finished) ->
  slots_after finished outs = Some <$> outs.
Proof.
  intros Hall. apply list_eq. intros i. unfold slots_after.
  rewrite list_lookup_imap, list_lookup_fmap.
  destruct (outs !! i) as [b|] eqn:Hb; [|done]. simpl.
  rewrite decide_True; [done|]. apply Hall. by eapply lookup_lt_Some.
Qed.

(** Whatever the order in which the workers complete, [pool.map] returns
    the results in the order of the tasks. *)
Lemma pool_map_task_order completion :
  completion ≡ₚ seq 0 (length tasks) ->
  pool_map f tasks completion = Some (Ok outs).
Proof using Houts.
  intros Hperm. unfold pool_map.
  assert (length completion = length tasks) as Hlen by by rewrite Hperm, length_seq.
  rewrite <- slots_after_nil, pool_fill_all, app_nil_r.
  - simpl. rewrite Hlen, Nat.sub_diag, decide_True by done.
    rewrite slots_after_all.
    + by rewrite mapM_fmap_Some.
    + intros i Hi. rewrite elem_of_reverse, Hperm, elem_of_seq.
      rewrite (Forall2_length _ _ _ Houts). lia.
  - rewrite Hperm. apply Forall_forall. intros i Hi%elem_of_seq. lia.
Qed.

End PoolMap.

(** [np.concatenate(…, axis=1)] appends the rows channel by channel. *)
Lemma foldl_zip_with_app (a : matrix) (rest : list matrix) :
  Forall (fun b => length b = length a) rest ->
  length (foldl (zip_with app) a rest) = length a /\
  forall c, c < length a ->
    foldl (zip_with app) a rest !! c = Some (concat ((fun m => m !!! c) <$> a :: rest)).
Proof.
  intros Hrest. revert a Hrest. induction rest as [|b rest IH]; intros a Hrest.
  - split; [done|]. intros c Hc. simpl. rewrite app_nil_r.
    by apply list_lookup_lookup_total_lt.
  - apply Forall_cons in Hrest as [Hb Hrest]. simpl.
    assert (length (zip_with app a b) = length a) as Hlen
      by (rewrite length_zip_with; lia).
    destruct (IH (zip_with app a b)) as [IHlen IHrow].
    { eapply Forall_impl; [done|]. intros m Hm. simpl in *. lia. }
    split; [lia|]. intros c Hc. rewrite IHrow by lia. simpl. f_equal.
    rewrite app_assoc. f_equal.
    apply list_lookup_total_correct. rewrite lookup_zip_with.
    by rewrite !list_lookup_lookup_total_lt by lia.
Qed.

Lemma np_concatenate_axis1_rows (arrays : list matrix) (N : nat) :
  arrays ≠ [] -> Forall (fun a => length a = N) arrays ->
  exists M, np_concatenate_axis1 arrays = Ok M /\ length M = N /\
            forall c, c < N -> M !! c = Some (concat ((fun a => a !!! c) <$> arrays)).
Proof.
  intros Hne Hshape. destruct arrays as [|a rest]; [done|].
  apply Forall_cons in Hshape as [<- Hrest]. unfold np_concatenate_axis1.
  rewrite decide_True by done.
  destruct (foldl_zip_with_app a rest Hrest) as [Hlen Hrows]. by eexists.
Qed.

(** C9.  Whatever the order in which the workers complete their reads,
    the assembled matrix is the concatenation along the time axis of the
    per-file arrays in the order of the sorted file names: row [c] of the
    result is row [c] of the first file of the sorted range, then row [c] of
    the second one, and so on. *)
Theorem assemble_filename_order read_decimate data_dir start_file num_file
    (listing : list string) (completion : list nat) (arrays : list matrix) (N : nat) :
  let files := files_to_read data_dir start_file num_file listing in
  completion ≡ₚ seq 0 (length files) ->
  Forall2 (fun file a => read_decimate file = Ok a) files arrays ->
  arrays ≠ [] -> Forall (fun a => length a = N) arrays ->
  (exists sorted,
     Sorted string_le sorted /\ sorted ≡ₚ listing /\
     files = take num_file (drop start_file ((fun i => data_dir +:+ i) <$> sorted))) /\
  exists M,
    assemble read_decimate data_dir start_file num_file listing completion = Some (Ok M) /\
    length M = N /\
    forall c, c < N -> M !! c = Some (concat ((fun a => a !!! c) <$> arrays)).
Proof.
  intros files Hperm Hreads Hne Hshape. split.
  - exists (sort_file_list listing).
    destruct (sort_file_list_sorted listing) as [Hsorted Hp]. by split_and!.
  - destruct (np_concatenate_axis1_rows arrays N Hne Hshape) as (M & HM & Hlen & Hrows).
    exists M. split_and!; try done.
    unfold assemble. fold files.
    rewrite (pool_map_task_order read_decimate files arrays Hreads completion Hperm).
    simpl. by rewrite HM.
Qed.

(** C9 at a concrete input: two files listed in the order b, a, the second
    task completing first. *)
Lemma assemble_filename_order_witness :
  (exists sorted,
     Sorted string_le sorted /\ sorted ≡ₚ ["b.hdf5"; "a.hdf5"] /\
     files_to_read "d/" 0 2 ["b.hdf5"; "a.hdf5"]
     = take 2 (drop 0 ((fun i => "d/" +:+ i) <$> sorted))) /\
  exists M,
    assemble sample_read_decimate "d/" 0 2 ["b.hdf5"; "a.hdf5"] [1; 0] = Some (Ok M) /\
    length M = 1 /\
    forall c, c < 1 ->
      M !! c = Some (concat ((fun a => a !!! c) <$> [[[Num 1]]; [[Num 2]]])).
Proof.
  apply (assemble_filename_order sample_read_decimate "d/" 0 2
           ["b.hdf5"; "a.hdf5"] [1; 0] [[[Num 1]]; [[Num 2]]] 1).
  - apply perm_swap.
  - by repeat constructor.
  - discriminate.
  - by repeat constructor.
Defined.

(** * Further properties

    What the adapter returns, the shape and the content of the histogram,
    the rows the reducer reads and the range of its statistics, the failures
    of the assembly, and the loop over the bins. *)

(** ** What the metadata adapter returns *)

Lemma bind_Ok_inv {A B} (m : result A) (f : A -> result B) (b : B) :
  m ≫= f = Ok b -> exists a, m = Ok a /\ f a = Ok b.
Proof. destruct m as [a|e]; [by exists a|done]. Qed.

Lemma with_h5py_file_inv {A} (disk : filesystem) path (body : h5py_file -> result A) a ev :
  with_h5py_file disk path body = (Ok a, ev) ->
  exists fp, disk !! path = Some fp /\ body fp = Ok a /\ ev = [Opened path].
Proof.
  unfold with_h5py_file. destruct (disk !! path) as [fp|]; [|done].
  intros [= Hbody <-]. by exists fp.
Qed.

Lemma h5_dataset_inv fp path v :
  h5_dataset fp path = Ok v -> h5_datasets fp !! path = Some v.
Proof. unfold h5_dataset. by destruct (_ !! _); intros [= ->]. Qed.

Lemma h5_attr_inv fp group name v :
  h5_attr fp group name = Ok v -> h5_attrs fp !! (group, name) = Some v.
Proof. unfold h5_attr. by destruct (_ !! _); intros [= ->]. Qed.

Lemma first_entry_inv a x : first_entry a = Ok x -> exists rest, a = x :: rest.
Proof. destruct a as [|y rest]; [done|]. intros [= ->]. by exists rest. Qed.

Lemma as_array_inv v a : as_array v = Ok a -> v = H5Array a.
Proof. by destruct v; intros [= ->]. Qed.

Ltac invert_binds H :=
  repeat (apply bind_Ok_inv in H as (? & ? & H)).

(** X5.  What a call for an OptoDAS file returns: the stored gauge length,
    start time, sample interval, unit and number of samples; the sampling
    rate [1/dt]; ten times the stored channel spacing; and the first entry of
    the stored channel count.  The file is opened once. *)
Theorem extract_metadata_optodas (disk : filesystem) (h5file : string) md ev :
  extract_metadata disk h5file "optodas" = (Ok md, ev) ->
  exists fp dt' dx' sizes nx',
    disk !! h5file = Some fp /\ ev = [Opened h5file] /\
    h5_datasets fp !! "header/gaugeLength" = Some (gl md) /\
    h5_datasets fp !! "header/time" = Some (t0 md) /\
    h5_datasets fp !! "header/dt" = Some (dt md) /\
    as_float (dt md) = Ok dt' /\ fs md = H5Float (fdiv (Num 1) dt') /\
    (exists dx, h5_datasets fp !! "header/dx" = Some dx /\ as_float dx = Ok dx') /\
    dx md = H5Float (fmul dx' (Num 10)) /\
    h5_datasets fp !! "header/unit" = Some (un md) /\
    h5_datasets fp !! "header/dimensionRanges/dimension0/size" = Some (ns md) /\
    h5_datasets fp !! "header/dimensionRanges/dimension1/size"
      = Some (H5Array (nx' :: sizes)) /\
    nx md = H5Float nx'.
Proof.
  unfold extract_metadata. rewrite decide_True by done.
  intros (fp & Hfp & Hbody & ->)%with_h5py_file_inv.
  invert_binds Hbody. injection Hbody as <-. simpl.
  repeat match goal with
         | H : h5_dataset _ _ = Ok _ |- _ => apply h5_dataset_inv in H
         | H : as_array _ = Ok _ |- _ => apply as_array_inv in H as ->
         | H : first_entry _ = Ok _ |- _ => apply first_entry_inv in H as [? ->]
         end.
  eexists fp, _, _, _, _. split_and!; try done. by eexists.
Qed.

(** X5 at a concrete input: the sample OptoDAS file, with [dt = 2] and a
    stored spacing of 1. *)
Lemma extract_metadata_optodas_witness :
  exists md fp dt' dx' sizes nx',
    sample_disk !! "a.hdf5" = Some fp /\
    h5_datasets fp !! "header/gaugeLength" = Some (gl md) /\
    h5_datasets fp !! "header/time" = Some (t0 md) /\
    h5_datasets fp !! "header/dt" = Some (dt md) /\
    as_float (dt md) = Ok dt' /\ fs md = H5Float (fdiv (Num 1) dt') /\
    (exists dx, h5_datasets fp !! "header/dx" = Some dx /\ as_float dx = Ok dx') /\
    dx md = H5Float (fmul dx' (Num 10)) /\
    h5_datasets fp !! "header/unit" = Some (un md) /\
    h5_datasets fp !! "header/dimensionRanges/dimension0/size" = Some (ns md) /\
    h5_datasets fp !! "header/dimensionRanges/dimension1/size"
      = Some (H5Array (nx' :: sizes)) /\
    nx md = H5Float nx'.
Proof.
  destruct (extract_metadata_optodas sample_disk "a.hdf5"
              (Metadata (H5Float (Num 10)) (H5Float (Num 1715299200)) (H5Float (Num 2))
                 (H5Float (fdiv (Num 1) (Num 2))) (H5Float (fmul (Num 1) (Num 10)))
                 (H5Str "rad/m") (H5Int 6000) (H5Float (Num 9000)))
              [Opened "a.hdf5"] eq_refl)
    as (fp & dt' & dx' & sizes & nx' & Hfp & _ & Hrest).
  by eexists _, fp, dt', dx', sizes, nx'.
Defined.

(** X6.  What a call for an ONYX file returns: the stored gauge length,
    sampling rate, channel spacing (as stored, not scaled), unit and channel
    count; the sample interval [1/fs]; the first time stamp, from
    microseconds to seconds; and the number of time stamps.  The file is
    opened once. *)
Theorem extract_metadata_onyx (disk : filesystem) (h5file : string) md ev :
  extract_metadata disk h5file "onyx" = (Ok md, ev) ->
  exists fp fs' stamp stamps,
    disk !! h5file = Some fp /\ ev = [Opened h5file] /\
    h5_attrs fp !! ("Acquisition", "GaugeLength") = Some (gl md) /\
    h5_datasets fp !! "Acquisition/Raw[0]/RawDataTime" = Some (H5Array (stamp :: stamps)) /\
    t0 md = H5Float (fdiv stamp (Num 1e6)) /\
    h5_attrs fp !! ("Acquisition/Raw[0]", "OutputDataRate") = Some (fs md) /\
    as_float (fs md) = Ok fs' /\ dt md = H5Float (fdiv (Num 1) fs') /\
    h5_attrs fp !! ("Acquisition", "SpatialSamplingInterval") = Some (dx md) /\
    h5_attrs fp !! ("Acquisition/Raw[0]", "RawDataUnit") = Some (un md) /\
    ns md = H5Int (S (length stamps)) /\
    h5_attrs fp !! ("Acquisition/Raw[0]", "NumberOfLoci") = Some (nx md).
Proof.
  unfold extract_metadata. rewrite decide_False, decide_True by done.
  intros (fp & Hfp & Hbody & ->)%with_h5py_file_inv.
  invert_binds Hbody. injection Hbody as <-. simpl.
  repeat match goal with
         | H : h5_dataset _ _ = Ok _ |- _ => apply h5_dataset_inv in H
         | H : h5_attr _ _ _ = Ok _ |- _ => apply h5_attr_inv in H
         | H : as_array _ = Ok _ |- _ => apply as_array_inv in H as ->
         | H : first_entry _ = Ok _ |- _ => apply first_entry_inv in H as [? ->]
         end.
  simplify_eq. eexists fp, _, _, _. by split_and!.
Qed.

(** X6 at a concrete input: the sample ONYX file, with two time stamps and
    [fs = 2]. *)
Lemma extract_metadata_onyx_witness :
  exists md fp fs' stamp stamps,
    sample_disk !! "b.h5" = Some fp /\
    h5_attrs fp !! ("Acquisition", "GaugeLength") = Some (gl md) /\
    h5_datasets fp !! "Acquisition/Raw[0]/RawDataTime" = Some (H5Array (stamp :: stamps)) /\
    t0 md = H5Float (fdiv stamp (Num 1e6)) /\
    h5_attrs fp !! ("Acquisition/Raw[0]", "OutputDataRate") = Some (fs md) /\
    as_float (fs md) = Ok fs' /\ dt md = H5Float (fdiv (Num 1) fs') /\
    h5_attrs fp !! ("Acquisition", "SpatialSamplingInterval") = Some (dx md) /\
    h5_attrs fp !! ("Acquisition/Raw[0]", "RawDataUnit") = Some (un md) /\
    ns md = H5Int (S (length stamps)) /\
    h5_attrs fp !! ("Acquisition/Raw[0]", "NumberOfLoci") = Some (nx md).
Proof.
  destruct (extract_metadata_onyx sample_disk "b.h5"
              (Metadata (H5Float (Num 10)) (H5Float (fdiv (Num 4e6) (Num 1e6)))
                 (H5Float (fdiv (Num 1) (Num 2))) (H5Float (Num 2)) (H5Float (Num 5))
                 (H5Str "rad") (H5Int 2) (H5Int 9000))
              [Opened "b.h5"] eq_refl)
    as (fp & fs' & stamp & stamps & Hfp & _ & Hrest).
  by eexists _, fp, fs', stamp, stamps.
Defined.

Lemma fdiv_one_inv (x : npfloat) (a : R) :
  fdiv (Num 1) x = Num a -> a ≠ 0%R -> exists b, x = Num b /\ (a * b = 1)%R.
Proof.
  destruct x as [b| | |]; simpl; try done.
  - repeat case_decide; try done. intros [= <-] _. exists b. split; [done|]. by field.
  - by intros [= <-].
  - by intros [= <-].
Qed.



(** ** The shape and the entries of the histogram *)

(** X8.  Whenever [ppsd] returns, the histogram has 99 frequency bins of
    199 power bins each, with 99 and 199 bin centres: the sizes do not
    depend on the data. *)
Theorem ppsd_shape detrend periodogram data fs fmin fmax h H xm ym h' :
  ppsd detrend periodogram data fs fmin fmax h = (Ok (H, xm, ym), h') ->
  length H = 99 /\ Forall (fun row => length row = 199) H /\
  length xm = 99 /\ length ym = 199.
Proof.
  intros (freq & spec & _ & Hpdf)%ppsd_inv.
  by apply generate_pdf_shape in Hpdf as (? & ? & ? & ? & _).
Qed.

Lemma ppsd_sample_returns :
  exists H xm ym,
    ppsd sample_detrend sample_periodogram sample_view (Num 1) (Num 1) (Num 10) sample_heap
    = (Ok (H, xm, ym), write_view sample_view (demean [[Num 1; Num 3]]) sample_heap).
Proof.
  destruct (generate_pdf_returns 1 10 1 2 [Num 1; Num 2] [Num 1; Num 2])
    as [[[H xm] ym] Hpdf];
    [lra|done|apply least_sample_pair; lra|apply greatest_sample_pair; lra|lra|].
  exists H, xm, ym. by rewrite ppsd_sample, Hpdf.
Qed.

(** X8 at a concrete input: the sample heap. *)
Lemma ppsd_shape_witness :
  exists H xm ym h',
    ppsd sample_detrend sample_periodogram sample_view (Num 1) (Num 1) (Num 10) sample_heap
    = (Ok (H, xm, ym), h') /\
    length H = 99 /\ Forall (fun row => length row = 199) H /\
    length xm = 99 /\ length ym = 199.
Proof.
  destruct ppsd_sample_returns as (H & xm & ym & Hppsd).
  eexists H, xm, ym, _. split; [exact Hppsd|].
  exact (ppsd_shape _ _ _ _ _ _ _ _ _ _ _ Hppsd).
Defined.

Lemma foldr_add_elem (ns : list nat) (n : nat) : n ∈ ns -> n <= foldr Nat.add 0 ns.
Proof.
  induction ns as [|m ns IH]; [by intros ?%elem_of_nil|].
  intros [->|Hin]%elem_of_cons; simpl; [lia|]. specialize (IH Hin). lia.
Qed.

(** A normalised row of counts is [nan] throughout, or holds numbers
    between 0 and 1. *)
Lemma normalized_row_entries (counts : list npfloat) :
  count_row counts ->
  let row := map (fun c => fdiv c (np_sum counts)) counts in
  Forall (fun p => p = NaN) row \/
  Forall (fun p => exists r : R, p = Num r /\ (0 <= r <= 1)%R) row.
Proof.
  intros Hc row. destruct (decide (np_sum counts = Num 0)) as [Hz|Hnz].
  - left. by apply normalized_row_empty.
  - right. subst row. destruct Hc as [ns ->]. rewrite np_sum_of_nat in *.
    set (t := foldr Nat.add 0 ns) in *.
    assert (t ≠ 0) as Ht by (intros Heq; apply Hnz; by rewrite Heq).
    apply Forall_fmap, Forall_fmap, Forall_forall. intros n Hn.
    apply foldr_add_elem in Hn. fold t in Hn. simpl. unfold of_nat. simpl.
    assert (0 < INR t)%R as Hpos by (apply lt_0_INR; lia).
    rewrite decide_False by lra. eexists. split; [done|].
    pose proof (pos_INR n). apply le_INR in Hn. split.
    + apply Rmult_le_pos; [done|]. left. by apply Rinv_0_lt_compat.
    + apply (Rmult_le_reg_r (INR t)); [done|]. field_simplify; lra.
Qed.

(** X9.  Every entry of a histogram that [ppsd] returns is a probability: a
    row is [nan] throughout (no sample fell in that frequency bin) or holds
    numbers between 0 and 1. *)
Theorem ppsd_entries_are_probabilities detrend periodogram data fs fmin fmax h H xm ym h' :
  ppsd detrend periodogram data fs fmin fmax h = (Ok (H, xm, ym), h') ->
  Forall (fun row =>
            Forall (fun p => p = NaN) row \/
            Forall (fun p => exists r : R, p = Num r /\ (0 <= r <= 1)%R) row) H.
Proof.
  intros (freq & spec & _ & Hpdf)%ppsd_inv.
  apply generate_pdf_inv in Hpdf as (C & xe & ye & HC & -> & _).
  apply pdf_counts_counts in HC.
  rewrite normalize_rows_counts by done.
  apply Forall_fmap. eapply Forall_impl; [exact HC|].
  intros counts Hc. by apply normalized_row_entries.
Qed.

(** X9 at a concrete input: the sample heap. *)
Lemma ppsd_entries_are_probabilities_witness :
  exists H xm ym h',
    ppsd sample_detrend sample_periodogram sample_view (Num 1) (Num 1) (Num 10) sample_heap
    = (Ok (H, xm, ym), h') /\
    Forall (fun row =>
              Forall (fun p => p = NaN) row \/
              Forall (fun p => exists r : R, p = Num r /\ (0 <= r <= 1)%R) row) H.
Proof.
  destruct ppsd_sample_returns as (H & xm & ym & Hppsd).
  eexists H, xm, ym, _. split; [exact Hppsd|].
  exact (ppsd_entries_are_probabilities _ _ _ _ _ _ _ _ _ _ _ Hppsd).
Defined.

(** ** The frequency bin centres *)

Lemma bin_centers_lookup (e : list npfloat) (i : nat) (a b : npfloat) :
  e !! i = Some a -> e !! S i = Some b ->
  bin_centers e !! i = Some (fdiv (fadd b a) (Num 2)).
Proof.
  intros Ha Hb. unfold bin_centers. apply lookup_zip_with_Some.
  exists b, a. split_and!; [done| |].
  - by rewrite lookup_tail.
  - rewrite removelast_firstn_len. apply lookup_take_Some. split; [done|].
    apply lookup_lt_Some in Hb. lia.
Qed.

Lemma log_spaced_lookup (lo hi : R) (n i : nat) :
  i < n ->
  log_spaced lo hi n !! i = Some (Num (lo * Rpower (hi / lo) (INR i / INR (n - 1)))).
Proof.
  intros Hi. unfold log_spaced. by rewrite list_lookup_fmap, lookup_seq_lt.
Qed.

(** The edges between [lo < hi] grow with their index. *)
Lemma log_spaced_edge_lt (lo hi : R) (n i j : nat) :
  (0 < lo < hi)%R -> i < j ->  j < n ->
  (lo * Rpower (hi / lo) (INR i / INR (n - 1))
   < lo * Rpower (hi / lo) (INR j / INR (n - 1)))%R.
Proof.
  intros [Hlo Hlt] Hij Hj.
  assert (0 < INR (n - 1))%R as Hd by (apply lt_0_INR; lia).
  assert (1 < hi / lo)%R as Hratio.
  { apply (Rmult_lt_reg_r lo); [done|]. field_simplify; lra. }
  apply Rmult_lt_compat_l; [done|]. apply Rpower_lt; [done|].
  apply Rmult_lt_compat_r; [by apply Rinv_0_lt_compat|]. by apply lt_INR.
Qed.

Lemma log_spaced_edge_le (lo hi : R) (n i j : nat) :
  (0 < lo < hi)%R -> i <= j ->  j < n ->
  (lo * Rpower (hi / lo) (INR i / INR (n - 1))
   <= lo * Rpower (hi / lo) (INR j / INR (n - 1)))%R.
Proof.
  intros Hlo Hij Hj. destruct (decide (i = j)) as [->|Hne]; [lra|].
  left. apply log_spaced_edge_lt; [done|lia|done].
Qed.

Lemma log_spaced_edge_first (lo hi : R) (n : nat) :
  (0 < lo < hi)%R -> (lo * Rpower (hi / lo) (INR 0 / INR (n - 1)) = lo)%R.
Proof.
  intros [Hlo Hlt]. change (INR 0) with 0%R. unfold Rdiv at 2.
  rewrite Rmult_0_l, Rpower_O; [lra|]. apply Rpower_div_pos; lra.
Qed.

Lemma log_spaced_edge_last (lo hi : R) (n : nat) :
  (0 < lo < hi)%R -> 2 <= n ->
  (lo * Rpower (hi / lo) (INR (n - 1) / INR (n - 1)) = hi)%R.
Proof.
  intros [Hlo Hlt] Hn. pose proof (INR_pred_neq_0 n Hn) as Hd.
  replace (INR (n - 1) / INR (n - 1))%R with 1%R by by field.
  rewrite Rpower_1 by (apply Rpower_div_pos; lra). field. lra.
Qed.



(** ** When [ppsd] returns *)

Lemma length_concat_replicate {A} (n : nat) (l : list A) :
  length (concat (replicate n l)) = n * length l.
Proof. induction n as [|n IH]; simpl; [done|]. rewrite length_app, IH. lia. Qed.

Lemma length_concat_rows {A} (rows : list (list A)) (n : nat) :
  Forall (fun row => length row = n) rows -> length (concat rows) = length rows * n.
Proof.
  induction 1 as [|row rows Hrow _ IH]; simpl; [done|]. rewrite length_app, IH. lia.
Qed.

(** X11.  [ppsd] returns a histogram whenever [0 < fmin <= fmax], scipy
    returns a periodogram with one row of powers per channel and one power
    per frequency, and the least of the powers is finite and positive.  The
    caller's array then holds the demeaned channels. *)
Theorem ppsd_returns detrend periodogram data fs (fmin fmax lo hi : R) h d d' freq spec :
  read_view data h = Some d ->
  detrend (demean d) = Ok d' ->
  periodogram d' fs = Ok (freq, spec) ->
  length spec = length d -> Forall (fun row => length row = length freq) spec ->
  least_sample (Num lo) (concat spec) -> greatest_sample (Num hi) (concat spec) ->
  (0 < lo)%R -> (0 < fmin <= fmax)%R ->
  exists H xm ym,
    ppsd detrend periodogram data fs (Num fmin) (Num fmax) h
    = (Ok (H, xm, ym), write_view data (demean d) h).
Proof.
  intros Hread Hdet Hper Hrows Hcols Hlo Hhi Hpos Hf.
  unfold ppsd, periodogram_pairs. rewrite Hread, Hdet, bind_Ok, Hper, !bind_Ok.
  destruct (generate_pdf_returns fmin fmax lo hi
              (concat (replicate (length d) freq)) (concat spec))
    as [[[H xm] ym] ->]; try done.
  - rewrite length_concat_replicate, (length_concat_rows spec (length freq)) by done.
    by rewrite Hrows.
  - by exists H, xm, ym.
Qed.

(** X11 at a concrete input: the sample heap, between 1 and 10 Hz. *)
Lemma ppsd_returns_witness :
  exists H xm ym,
    ppsd sample_detrend sample_periodogram sample_view (Num 1) (Num 1) (Num 10) sample_heap
    = (Ok (H, xm, ym), write_view sample_view (demean [[Num 1; Num 3]]) sample_heap).
Proof.
  apply (ppsd_returns sample_detrend sample_periodogram sample_view (Num 1) 1 10 1 2
           sample_heap [[Num 1; Num 3]] (demean [[Num 1; Num 3]])
           [Num 1; Num 2] [[Num 1; Num 2]]).
  - apply sample_read.
  - reflexivity.
  - reflexivity.
  - reflexivity.
  - by repeat constructor.
  - apply least_sample_pair. lra.
  - apply greatest_sample_pair. lra.
  - lra.
  - lra.
Defined.



(** ** A second call on the same array *)

Lemma finite_row (row : list npfloat) :
  Forall (fun x => isfinite x = true) row -> exists rs : list R, row = map Num rs.
Proof.
  induction 1 as [|x row Hx _ [rs ->]]; [by exists []|].
  destruct x as [r| | |]; try done. by exists (r :: rs).
Qed.

Lemma foldr_Rplus_shift (rs : list R) (mu : R) :
  foldr Rplus 0%R (map (fun r => r + - mu)%R rs)
  = (foldr Rplus 0%R rs - INR (length rs) * mu)%R.
Proof.
  induction rs as [|r rs IH]; [simpl; lra|].
  cbn [map foldr length]. rewrite IH, S_INR. lra.
Qed.

Lemma np_mean_Num (rs : list R) :
  rs ≠ [] -> np_mean (map Num rs) = Num (foldr Rplus 0%R rs / INR (length rs)).
Proof.
  intros Hne. unfold np_mean. rewrite np_sum_Num, length_map. unfold of_nat. simpl.
  rewrite decide_False; [done|]. apply not_0_INR. by destruct rs.
Qed.

(** Removing the mean of a finite row leaves a row of mean zero: removing
    it again changes nothing. *)
Lemma demean_row_idempotent (row : list npfloat) :
  Forall (fun x => isfinite x = true) row ->
  let row' := map (fun x => fsub x (np_mean row)) row in
  map (fun x => fsub x (np_mean row')) row' = row'.
Proof.
  intros [rs ->]%finite_row row'. destruct (decide (rs = [])) as [->|Hne]; [done|].
  assert (INR (length rs) ≠ 0%R) as Hn by (apply not_0_INR; by destruct rs).
  subst row'. rewrite np_mean_Num by done.
  set (mu := (foldr Rplus 0 rs / INR (length rs))%R).
  assert (map (fun x => fsub x (Num mu)) (map Num rs)
          = map Num (map (fun r => r + - mu)%R rs)) as ->
    by by rewrite <- !list_fmap_compose.
  rewrite np_mean_Num by (by destruct rs).
  rewrite foldr_Rplus_shift, length_map.
  rewrite <- !list_fmap_compose. apply list_fmap_ext. intros _ r _. simpl. f_equal.
  unfold mu. by field.
Qed.

Lemma demean_idempotent (d : matrix) :
  Forall (Forall (fun x => isfinite x = true)) d -> demean (demean d) = demean d.
Proof.
  intros Hd. unfold demean. rewrite <- list_fmap_compose.
  apply Forall_fmap_ext_1. eapply Forall_impl; [exact Hd|].
  intros row Hrow. by apply demean_row_idempotent.
Qed.

(** Writing to a view the rows it already holds changes nothing. *)
Lemma write_view_read (v : ndview) (rows : matrix) (h : heap) :
  read_view v h = Some rows -> write_view v rows h = h.
Proof.
  unfold read_view, write_view. intros Hread.
  destruct (h !! view_base v) as [m|] eqn:Hm; [|done].
  simpl in Hread. injection Hread as <-.
  apply map_eq. intros addr. destruct (decide (addr = view_base v)) as [->|Hne].
  - rewrite lookup_alter_eq, Hm. simpl. f_equal. unfold rows_of.
    rewrite length_take, length_drop.
    destruct (decide (view_start v <= length m)) as [Hs|Hs].
    + destruct (decide (view_stop v - view_start v <= length m - view_start v)) as [Hn|Hn].
      * rewrite Nat.min_l by done. rewrite <- drop_drop.
        by rewrite take_drop, take_drop.
      * rewrite Nat.min_r, (take_ge (drop _ _)) by (rewrite ?length_drop; lia).
        rewrite (drop_ge m (_ + _)) by lia. by rewrite app_nil_r, take_drop.
    + rewrite (drop_ge m (view_start v)) by lia. rewrite take_nil. simpl.
      rewrite (drop_ge m) by lia. rewrite app_nil_r. apply take_ge. lia.
  - by rewrite lookup_alter_ne.
Qed.

(** The result of [ppsd] in terms of the rows its argument views. *)
Lemma ppsd_result detrend periodogram data fs fmin fmax h d :
  read_view data h = Some d ->
  (ppsd detrend periodogram data fs fmin fmax h).1
  = (d' ← detrend (demean d);
     '(freq, spec) ← periodogram d' fs;
     generate_pdf (concat (replicate (length d) freq)) (concat spec) fmin fmax).
Proof.
  intros Hread. unfold ppsd, periodogram_pairs. rewrite Hread. simpl.
  destruct (detrend (demean d)) as [d'|]; [|done]. simpl.
  by destruct (periodogram d' fs) as [[freq spec]|].
Qed.



(** ** Which samples the histogram counts *)

Lemma log_spaced_edge_range (lo hi : R) (n i : nat) :
  (0 < lo <= hi)%R -> i < n ->
  (lo <= lo * Rpower (hi / lo) (INR i / INR (n - 1)) <= hi)%R.
Proof.
  intros [Hlo Hle] Hi.
  assert (1 <= hi / lo)%R as Hratio.
  { apply (Rmult_le_reg_r lo); [done|]. field_simplify; lra. }
  assert (0 < INR (n - 1) -> 0 <= INR i / INR (n - 1) <= 1)%R as Hfrac.
  { intros Hd. split.
    - apply Rmult_le_pos; [apply pos_INR|]. left. by apply Rinv_0_lt_compat.
    - assert (INR i <= INR (n - 1))%R by (apply le_INR; lia).
      apply (Rmult_le_reg_r (INR (n - 1))); [done|].
      unfold Rdiv. rewrite Rmult_assoc, Rinv_l by lra. lra. }
  destruct (decide (n - 1 = 0)) as [Hz|Hnz].
  - assert (i = 0) as -> by lia. change (INR 0) with 0%R. unfold Rdiv at 2 4.
    rewrite Rmult_0_l, Rpower_O by lra. lra.
  - assert (0 < INR (n - 1))%R as Hd by (apply lt_0_INR; lia).
    specialize (Hfrac Hd). split.
    + rewrite <- (Rmult_1_r lo) at 1. apply Rmult_le_compat_l; [lra|].
      rewrite <- (Rpower_O (hi / lo)) at 1 by lra. apply Rle_Rpower; lra.
    + apply Rle_trans with (lo * Rpower (hi / lo) 1)%R.
      * apply Rmult_le_compat_l; [lra|]. apply Rle_Rpower; lra.
      * rewrite Rpower_1 by lra. right. field. lra.
Qed.

Lemma last_lookup_default {A} (l : list A) (d : A) :
  List.last l d = default d (l !! (length l - 1)).
Proof.
  induction l as [|x [|y l] IH]; [done..|].
  change (List.last (x :: y :: l) d) with (List.last (y :: l) d). rewrite IH.
  simpl. by rewrite Nat.sub_0_r.
Qed.

Lemma log_spaced_edges_between (lo hi : R) (n : nat) :
  (0 < lo <= hi)%R -> 2 <= n -> edges_between lo hi (log_spaced lo hi n).
Proof.
  intros Hlo Hn. split_and!.
  - destruct n as [|n]; [lia|]. unfold log_spaced. cbn [seq map]. eexists. f_equal.
    f_equal. change (INR 0) with 0%R. unfold Rdiv at 2.
    rewrite Rmult_0_l, Rpower_O; [lra|]. apply Rpower_div_pos; lra.
  - rewrite last_lookup_default, log_spaced_length, log_spaced_last by (lra || done).
    done.
  - by rewrite log_spaced_length.
  - apply Forall_forall. intros e (i & -> & Hi)%list_elem_of_fmap.
    apply elem_of_seq in Hi. eexists. split; [done|].
    apply log_spaced_edge_range; [done|lia].
Qed.

(** The bin of a sample, against edges from [lo] to [hi]: an inner bin for
    a number between [lo] and [hi], an outlier bin for anything else. *)
Lemma bin_number_inside (lo hi r : R) (edges : list npfloat) :
  edges_between lo hi edges -> (lo <= r <= hi)%R ->
  1 <= bin_number edges (Num r) <= length edges - 1.
Proof.
  intros ([rest ->] & Hlast & Hlen & Hall) Hr.
  unfold bin_number, np_searchsorted_right.
  rewrite filter_cons_True by (simpl; rewrite fle_num; apply bool_decide_eq_true; lra).
  rewrite Hlast, feq_num. simpl length in *.
  pose proof (length_filter (fun e => sort_le e (Num r) = true) rest) as Hle.
  assert (Num hi ∈ rest) as Hin.
  { rewrite <- Hlast. destruct rest as [|e rest]; [simpl in Hlen; lia|].
    change (List.last (Num lo :: e :: rest) NaN) with (List.last (e :: rest) NaN).
    by apply last_elem_of. }
  case_bool_decide as Heq.
  - assert (Num hi ∈ filter (fun e => sort_le e (Num r) = true) rest) as Hin'.
    { apply list_elem_of_filter. split; [|done]. simpl. rewrite fle_num.
      apply bool_decide_eq_true. lra. }
    destruct (filter _ rest); [by apply elem_of_nil in Hin'|]. simpl in *. lia.
  - assert (length (filter (fun e => sort_le e (Num r) = true) rest) < length rest); [|lia].
    apply (length_filter_lt _ _ (Num hi)); [done|].
    simpl. rewrite fle_num. intros Hle'%bool_decide_eq_true. lra.
Qed.

Lemma length_filter_none {A} (P : A -> Prop) `{!forall x, Decision (P x)} (l : list A) :
  Forall (fun x => ~ P x) l -> length (filter P l) = 0.
Proof.
  induction 1 as [|x l Hx _ IH]; [done|]. by rewrite filter_cons_False.
Qed.

Lemma length_filter_all {A} (P : A -> Prop) `{!forall x, Decision (P x)} (l : list A) :
  Forall P l -> length (filter P l) = length l.
Proof.
  induction 1 as [|x l Hx _ IH]; [done|]. rewrite filter_cons_True by done.
  simpl. by rewrite IH.
Qed.

Lemma bin_number_outside (lo hi : R) (v : npfloat) (edges : list npfloat) :
  edges_between lo hi edges ->
  fle (Num lo) v && fle v (Num hi) = false ->
  bin_number edges v = 0 \/ bin_number edges v = length edges.
Proof.
  intros ([rest Hfirst] & Hlast & Hlen & Hall) Hv.
  assert (lo <= hi)%R as Hlohi.
  { rewrite Hfirst in Hall. apply Forall_cons in Hall as [(x & [= <-] & Hx) _]. lra. }
  clear rest Hfirst.
  unfold bin_number, np_searchsorted_right. rewrite Hlast.
  destruct v as [r| | |].
  - rewrite !fle_num in Hv. rewrite feq_num.
    destruct (decide (r < lo)%R) as [Hlt|Hge].
    + left. rewrite bool_decide_eq_false_2 by lra.
      apply length_filter_none.
      eapply Forall_impl; [exact Hall|]. intros e (x & -> & Hx). simpl.
      rewrite fle_num. intros Hle%bool_decide_eq_true. lra.
    + right. assert (hi < r)%R as Hgt.
      { apply andb_false_iff in Hv as [Hv|Hv]; apply bool_decide_eq_false in Hv; lra. }
      rewrite bool_decide_eq_false_2 by lra.
      apply length_filter_all.
      eapply Forall_impl; [exact Hall|]. intros e (x & -> & Hx). simpl.
      rewrite fle_num. apply bool_decide_eq_true. lra.
  - right. simpl. apply length_filter_all.
    eapply Forall_impl; [exact Hall|]. by intros e (x & -> & Hx).
  - left. simpl. apply length_filter_none.
    eapply Forall_impl; [exact Hall|]. by intros e (x & -> & Hx).
  - right. apply bin_number_nan.
Qed.

Lemma foldr_add_app (l k : list nat) :
  foldr Nat.add 0 (l ++ k) = foldr Nat.add 0 l + foldr Nat.add 0 k.
Proof. induction l as [|x l IH]; simpl; [done|]. rewrite IH. lia. Qed.

Lemma foldr_add_plus {A} (f g : A -> nat) (l : list A) :
  foldr Nat.add 0 (map (fun x => f x + g x) l)
  = foldr Nat.add 0 (map f l) + foldr Nat.add 0 (map g l).
Proof. induction l as [|x l IH]; simpl; [done|]. rewrite IH. lia. Qed.

Lemma foldr_add_zero {A} (l : list A) : foldr Nat.add 0 (map (fun _ => 0) l) = 0.
Proof. by induction l. Qed.

(** Of the numbers [1 .. n] at most one is [q]. *)
Lemma foldr_add_indicator (q c n : nat) :
  foldr Nat.add 0 (map (fun k => if decide (q = S k) then c else 0) (seq 0 n))
  = if decide (1 <= q <= n) then c else 0.
Proof.
  induction n as [|n IH]; [by rewrite decide_False by lia|].
  rewrite seq_S, map_app, foldr_add_app, IH. simpl.
  repeat case_decide; lia.
Qed.

(** The counts of all the inner bins together: the samples whose two bin
    numbers are inner ones. *)
Lemma bin_counts_total (idx : list (nat * nat)) (a b : nat) :
  foldr Nat.add 0
    (map (fun i => foldr Nat.add 0 (map (count_in_bin idx i) (seq 0 b))) (seq 0 a))
  = length (filter (fun p => 1 <= p.1 <= a /\ 1 <= p.2 <= b) idx).
Proof.
  induction idx as [|p idx IH].
  - simpl. erewrite list_fmap_ext; [apply foldr_add_zero|].
    intros _ i _. simpl. apply foldr_add_zero.
  - assert (forall i j, count_in_bin (p :: idx) i j
              = (if decide (p.2 = S j) then (if decide (p.1 = S i) then 1 else 0) else 0)
                + count_in_bin idx i j) as Hcons.
    { intros i j. unfold count_in_bin. destruct p as [u v]. simpl.
      destruct (decide (v = S j)) as [->|Hv], (decide (u = S i)) as [->|Hu].
      - by rewrite filter_cons_True.
      - rewrite filter_cons_False; [done|]. by intros [= ?].
      - rewrite filter_cons_False; [done|]. by intros [= ?].
      - rewrite filter_cons_False; [done|]. by intros [= ?]. }
    erewrite list_fmap_ext.
    2:{ intros _ i _. erewrite list_fmap_ext; [|intros _ j _; apply Hcons].
        rewrite foldr_add_plus, foldr_add_indicator. reflexivity. }
    rewrite foldr_add_plus, IH.
    erewrite (list_fmap_ext _ (fun i => if decide (p.1 = S i)
                                        then (if decide (1 <= p.2 <= b) then 1 else 0)
                                        else 0)).
    2:{ intros _ i _. by repeat case_decide. }
    rewrite foldr_add_indicator.
    destruct (decide (1 <= p.1 <= a /\ 1 <= p.2 <= b)) as [Hin|Hout].
    + rewrite filter_cons_True by done. rewrite !decide_True by tauto. done.
    + rewrite filter_cons_False by done. repeat case_decide; tauto || lia.
Qed.

Lemma np_sum_bin_counts x y xe ye :
  np_sum (map np_sum (bin_counts x y xe ye))
  = of_nat (length (filter (fun p => 1 <= p.1 <= length xe - 1 /\ 1 <= p.2 <= length ye - 1)
                           (zip (map (bin_number xe) x) (map (bin_number ye) y)))).
Proof.
  unfold bin_counts. set (idx := zip _ _).
  rewrite <- bin_counts_total, <- np_sum_of_nat. f_equal.
  rewrite <- !list_fmap_compose. apply list_fmap_ext. intros _ i _. simpl.
  rewrite <- np_sum_of_nat. f_equal. by rewrite <- list_fmap_compose.
Qed.

(** With edges from the least to the greatest power, no sample leaves the
    histogram on the power axis, but those that are [nan]. *)
Lemma spec_sample_range (lo hi : R) (spec : list npfloat) (s : npfloat) :
  least_sample (Num lo) spec -> greatest_sample (Num hi) spec -> s ∈ spec -> s ≠ NaN ->
  exists r : R, s = Num r /\ (lo <= r <= hi)%R.
Proof.
  intros (_ & _ & Hlo) (_ & _ & Hhi) Hin Hs.
  specialize (Hlo s Hin Hs). specialize (Hhi s Hin Hs).
  destruct s as [r| | |]; try done. rewrite fle_num in Hlo, Hhi.
  apply bool_decide_eq_true in Hlo, Hhi. by exists r.
Qed.

Lemma counted_inner_bins (fmin fmax lo hi : R) (xe ye : list npfloat) freq spec :
  edges_between fmin fmax xe -> edges_between lo hi ye ->
  least_sample (Num lo) spec -> greatest_sample (Num hi) spec ->
  length (filter (fun p => 1 <= p.1 <= length xe - 1 /\ 1 <= p.2 <= length ye - 1)
            (zip (map (bin_number xe) freq) (map (bin_number ye) spec)))
  = length (filter (fun p => counted fmin fmax p = true) (zip freq spec)).
Proof.
  intros Hxe Hye Hlo Hhi.
  assert (forall sp, Forall (fun s => s ∈ spec) sp ->
            length (filter (fun p => 1 <= p.1 <= length xe - 1 /\ 1 <= p.2 <= length ye - 1)
                      (zip (map (bin_number xe) freq) (map (bin_number ye) sp)))
            = length (filter (fun p => counted fmin fmax p = true) (zip freq sp))) as Hgen;
    [|by apply Hgen, Forall_forall].
  induction freq as [|f freq IH]; intros [|s sp] Hin; try done.
  apply Forall_cons in Hin as [Hs Hin]. cbn [map zip zip_with].
  assert ((1 <= bin_number xe f <= length xe - 1 /\ 1 <= bin_number ye s <= length ye - 1)
          <-> counted fmin fmax (f, s) = true) as Hiff.
  { unfold counted. simpl.
    destruct (fle (Num fmin) f && fle f (Num fmax)) eqn:Hf.
    - assert (exists r : R, f = Num r /\ (fmin <= r <= fmax)%R) as (r & -> & Hr).
      { apply andb_true_iff in Hf as [H1 H2]. destruct f as [r| | |]; try done.
        rewrite fle_num in H1, H2. apply bool_decide_eq_true in H1, H2. by exists r. }
      pose proof (bin_number_inside _ _ _ _ Hxe Hr) as Hbx.
      destruct (decide (s = NaN)) as [->|Hnan].
      + rewrite bin_number_nan. simpl. destruct Hye as (_ & _ & ? & _).
        split; [lia|done].
      + destruct (spec_sample_range lo hi spec s Hlo Hhi Hs Hnan) as (t & -> & Ht).
        pose proof (bin_number_inside _ _ _ _ Hye Ht). simpl. split; [done|lia].
    - destruct (bin_number_outside _ _ _ _ Hxe Hf) as [-> | ->];
        destruct Hxe as (_ & _ & ? & _); simpl; split; (lia || done). }
  destruct (decide (counted fmin fmax (f, s) = true)) as [Hc|Hc].
  - rewrite !filter_cons_True by (done || by apply Hiff). simpl. by rewrite IH.
  - rewrite !filter_cons_False by (done || by rewrite Hiff). by apply IH.
Qed.



Lemma least_sample_insert (lo s : R) (s1 s2 : list npfloat) :
  least_sample (Num lo) (s1 ++ s2) -> (lo <= s)%R ->
  least_sample (Num lo) (s1 ++ Num s :: s2).
Proof.
  intros (Hin & Hnan & Hle) Hs. split_and!; [|done|].
  - apply elem_of_app in Hin as [?|?]; apply elem_of_app; [by left|by right; right].
  - intros x [Hx|[->|Hx]%elem_of_cons]%elem_of_app Hx'.
    + apply Hle; [|done]. apply elem_of_app. by left.
    + rewrite fle_num. by apply bool_decide_eq_true.
    + apply Hle; [|done]. apply elem_of_app. by right.
Qed.

Lemma greatest_sample_insert (hi s : R) (s1 s2 : list npfloat) :
  greatest_sample (Num hi) (s1 ++ s2) -> (s <= hi)%R ->
  greatest_sample (Num hi) (s1 ++ Num s :: s2).
Proof.
  intros (Hin & Hnan & Hle) Hs. split_and!; [|done|].
  - apply elem_of_app in Hin as [?|?]; apply elem_of_app; [by left|by right; right].
  - intros x [Hx|[->|Hx]%elem_of_cons]%elem_of_app Hx'.
    + apply Hle; [|done]. apply elem_of_app. by left.
    + rewrite fle_num. by apply bool_decide_eq_true.
    + apply Hle; [|done]. apply elem_of_app. by right.
Qed.



(** ** The rows of [H] that the reducer reads *)

Lemma for_each_app {A S} (body : S -> A -> result S) (l k : list A) (s : S) :
  for_each body (l ++ k) s = for_each body l s ≫= for_each body k.
Proof.
  revert s. induction l as [|a l IH]; intros s; [done|].
  simpl. destruct (body s a) as [s'|e]; [|done]. simpl. apply IH.
Qed.

Lemma for_each_ext {A S} (body body' : S -> A -> result S) (l : list A) (s : S) :
  (forall s a, a ∈ l -> body s a = body' s a) ->
  for_each body l s = for_each body' l s.
Proof.
  revert s. induction l as [|a l IH]; intros s Hext; [done|].
  simpl. rewrite Hext by by left. destruct (body' s a) as [s'|e]; [|done]. simpl.
  apply IH. intros s0 a0 Hin. apply Hext. by right.
Qed.

(** X16.  [psd_stats] reads the first [len(xm)] rows of [H] and no other:
    rows beyond them do not change what it returns or raises. *)
Theorem psd_stats_ignores_further_rows (H : matrix) (xm ym : list npfloat) :
  length xm <= length H ->
  psd_stats H xm ym = psd_stats (take (length xm) H) xm ym.
Proof.
  intros Hlen. unfold psd_stats.
  rewrite (for_each_ext _ (psd_stats_body (take (length xm) H) (map np_log10 ym))); [done|].
  intros [mean variance] ix [_ Hix]%elem_of_seq. unfold psd_stats_body, row_at.
  by rewrite lookup_take_lt by lia.
Qed.

(** X16 at a concrete input: a second row, of a length that would not do. *)
Lemma psd_stats_ignores_further_rows_witness :
  psd_stats [[Num 1; Num 3]; [Num 7]] [Num 1] [Num 1; Num 10]
  = psd_stats (take (length [Num 1]) [[Num 1; Num 3]; [Num 7]]) [Num 1] [Num 1; Num 10].
Proof. apply psd_stats_ignores_further_rows. simpl. lia. Defined.

(** ** Where the reducer stops *)

Lemma psd_stats_loop_within logym Hdone rest Hmore mdone vdone mmore vmore n :
  length Hdone = n -> length mdone = n -> length vdone = n ->
  Forall (usable_row logym) rest ->
  for_each (psd_stats_body (Hdone ++ rest ++ Hmore) logym)
           (seq n (length rest))
           (mdone ++ replicate (length rest) (Num 0) ++ mmore,
            vdone ++ replicate (length rest) (Num 0) ++ vmore)
  = Ok (mdone ++ map (fun row => log_mean row logym) rest ++ mmore,
        vdone ++ map (fun row => log_variance row logym) rest ++ vmore).
Proof.
  intros HH Hm Hv Hrest. revert Hdone mdone vdone n HH Hm Hv.
  induction Hrest as [|row rest Hrow _ IH]; intros Hdone mdone vdone n HH Hm Hv; [done|].
  cbn [length seq for_each replicate app map].
  rewrite (psd_stats_body_usable _ _ _ _ _ row) by (done || by apply list_lookup_middle).
  rewrite bind_Ok, !insert_middle by done.
  rewrite list_lookup_total_middle by done.
  fold (log_variance row logym).
  rewrite (cons_middle row Hdone), !(cons_middle _ mdone), !(cons_middle _ vdone).
  rewrite !app_assoc.
  rewrite <- (app_assoc (Hdone ++ [row])), <- (app_assoc (mdone ++ [_])),
    <- (app_assoc (vdone ++ [_])).
  rewrite (IH _ _ _ (S n)) by (rewrite !length_app; simpl; lia).
  by rewrite <- !app_assoc.
Qed.

(** The loop stops at the first row its body raises on. *)
Lemma psd_stats_stops (good more : matrix) (xm ym : list npfloat) (e : exn) :
  Forall (usable_row (map np_log10 ym)) good ->
  length good < length xm ->
  (forall mv, psd_stats_body (good ++ more) (map np_log10 ym) mv (length good) = Raise e) ->
  psd_stats (good ++ more) xm ym = Raise e.
Proof.
  intros Hgood Hlen Hbody. unfold psd_stats.
  replace (length xm) with (length good + S (length xm - length good - 1)) by lia.
  rewrite seq_app, for_each_app, replicate_add.
  pose proof (psd_stats_loop_within (map np_log10 ym) [] good more [] []
                (replicate (S (length xm - length good - 1)) (Num 0))
                (replicate (S (length xm - length good - 1)) (Num 0))
                0 eq_refl eq_refl eq_refl Hgood) as Hloop.
  cbn [app] in Hloop. change (0 + length good) with (length good).
  rewrite Hloop, bind_Ok. cbn [seq for_each]. by rewrite Hbody.
Qed.

(** X17.  With fewer rows in [H] than entries in [xm] the loop runs past
    the last row: [psd_stats] raises [IndexError] (the rows there are being
    rows it can process). *)
Theorem psd_stats_too_few_rows (H : matrix) (xm ym : list npfloat) :
  length H < length xm ->
  Forall (fun row => length row = length ym) H ->
  Forall (fun row => np_sum row ≠ Num 0) H ->
  psd_stats H xm ym = Raise (IndexError "index is out of bounds for axis 0").
Proof.
  intros Hlen Hshape Hne. rewrite <- (app_nil_r H).
  apply psd_stats_stops; [by apply usable_rows|done|].
  intros [mean variance]. unfold psd_stats_body, row_at.
  by rewrite app_nil_r, lookup_ge_None_2.
Qed.

(** X17 at a concrete input: one row for two frequencies. *)
Lemma psd_stats_too_few_rows_witness :
  psd_stats [[Num 1; Num 3]] [Num 1; Num 2] [Num 1; Num 10]
  = Raise (IndexError "index is out of bounds for axis 0").
Proof.
  apply psd_stats_too_few_rows.
  - simpl. lia.
  - by repeat constructor.
  - repeat constructor. rewrite np_sum_pair. intros [= Hs]. lra.
Defined.

(** X18.  A row of [H] that is not as long as [ym] makes [psd_stats] raise
    the [TypeError] of [np.average] when the loop reaches it: the weights
    must have the shape of the values. *)
Theorem psd_stats_row_length_mismatch (good more : matrix) (row xm ym : list npfloat) :
  Forall (fun r => length r = length ym) good ->
  Forall (fun r => np_sum r ≠ Num 0) good ->
  length good < length xm ->
  length row ≠ length ym ->
  psd_stats (good ++ row :: more) xm ym
  = Raise (TypeError "Axis must be specified when shapes of a and weights differ.").
Proof.
  intros Hshape Hne Hlen Hrow.
  apply psd_stats_stops; [by apply usable_rows|done|].
  intros [mean variance]. unfold psd_stats_body.
  rewrite (row_at_Some _ _ row), bind_Ok by by apply list_lookup_middle.
  unfold np_average. by rewrite decide_True by (rewrite length_map; congruence).
Qed.

(** X18 at a concrete input: a second row of one weight for two power
    bins. *)
Lemma psd_stats_row_length_mismatch_witness :
  psd_stats ([[Num 1; Num 3]] ++ [Num 7] :: []) [Num 1; Num 2] [Num 1; Num 10]
  = Raise (TypeError "Axis must be specified when shapes of a and weights differ.").
Proof.
  apply psd_stats_row_length_mismatch.
  - by repeat constructor.
  - repeat constructor. rewrite np_sum_pair. intros [= Hs]. lra.
  - simpl. lia.
  - simpl. lia.
Defined.

(** ** Counts or probabilities: the same statistics *)

Lemma weighted_average_Num (ws rs : list R) :
  foldr Rplus 0%R ws ≠ 0%R ->
  weighted_average (map Num ws) (map Num rs)
  = Num (foldr Rplus 0%R (zip_with Rmult ws rs) / foldr Rplus 0%R ws).
Proof.
  intros Hne. unfold weighted_average.
  rewrite zip_with_fmul_Num, !np_sum_Num. simpl. by rewrite decide_False.
Qed.

Lemma foldr_Rplus_scale (t : R) (ws : list R) :
  foldr Rplus 0%R (map (fun w => w / t)%R ws) = (foldr Rplus 0%R ws / t)%R.
Proof.
  induction ws as [|w ws IH]; simpl; [lra|]. rewrite IH. lra.
Qed.

Lemma weighted_sum_scale (t : R) (ws rs : list R) :
  foldr Rplus 0%R (zip_with Rmult (map (fun w => w / t)%R ws) rs)
  = (foldr Rplus 0%R (zip_with Rmult ws rs) / t)%R.
Proof.
  revert rs. induction ws as [|w ws IH]; intros [|r rs]; simpl; try lra.
  rewrite IH. lra.
Qed.

(** Dividing the weights by a number other than zero does not change a
    weighted average. *)
Lemma weighted_average_scale (t : R) (ws rs : list R) :
  t ≠ 0%R -> foldr Rplus 0%R ws ≠ 0%R ->
  weighted_average (map (fun c => fdiv c (Num t)) (map Num ws)) (map Num rs)
  = weighted_average (map Num ws) (map Num rs).
Proof.
  intros Ht Hne.
  assert (map (fun c => fdiv c (Num t)) (map Num ws) = map Num (map (fun w => w / t)%R ws))
    as ->.
  { rewrite <- !list_fmap_compose. apply list_fmap_ext. intros _ w _. simpl.
    by rewrite decide_False. }
  rewrite !weighted_average_Num; [|done|].
  - rewrite weighted_sum_scale, foldr_Rplus_scale. f_equal. by field.
  - rewrite foldr_Rplus_scale. intros Hz. apply Hne.
    apply (Rmult_eq_reg_r (/ t)); [|by apply Rinv_neq_0_compat].
    unfold Rdiv in Hz. lra.
Qed.

Lemma normalized_counts_average (ns : list nat) (rs : list R) :
  foldr Nat.add 0 ns ≠ 0 ->
  weighted_average (map (fun c => fdiv c (np_sum (map of_nat ns))) (map of_nat ns))
                   (map Num rs)
  = weighted_average (map of_nat ns) (map Num rs).
Proof.
  intros Hne. rewrite np_sum_of_nat.
  replace (map of_nat ns) with (map Num (map INR ns)) by by rewrite <- list_fmap_compose.
  unfold of_nat. apply weighted_average_scale.
  - by apply not_0_INR.
  - rewrite INR_foldr_add. by apply not_0_INR.
Qed.

Lemma log10_finite (ps : list R) :
  Forall (fun p => (0 < p)%R) ps -> map np_log10 (map Num ps) = map Num (map (Rlog 10) ps).
Proof. apply np_log10_positive. Qed.

Lemma squares_Num (mu : R) (ls : list R) :
  map (fun y => fsquare (fsub y (Num mu))) (map Num ls)
  = map Num (map (fun l => (l + - mu) * (l + - mu))%R ls).
Proof. rewrite <- !list_fmap_compose. by apply list_fmap_ext. Qed.



(** ** The range of the statistics *)

Lemma foldr_Rplus_nonneg (ws : list R) :
  Forall (fun w => (0 <= w)%R) ws -> (0 <= foldr Rplus 0%R ws)%R.
Proof. induction 1 as [|w ws Hw _ IH]; simpl; lra. Qed.

Lemma weighted_sum_bounds (a b : R) (ws rs : list R) :
  Forall (fun w => (0 <= w)%R) ws -> Forall (fun r => (a <= r <= b)%R) rs ->
  length ws = length rs ->
  (a * foldr Rplus 0%R ws <= foldr Rplus 0%R (zip_with Rmult ws rs)
   <= b * foldr Rplus 0%R ws)%R.
Proof.
  intros Hws. revert rs. induction Hws as [|w ws Hw _ IH]; intros [|r rs] Hrs Hlen;
    simpl in *; try lia; [lra|].
  apply Forall_cons in Hrs as [Hr Hrs]. specialize (IH rs Hrs ltac:(lia)). nra.
Qed.

Lemma weighted_sum_nonneg (ws rs : list R) :
  Forall (fun w => (0 <= w)%R) ws -> Forall (fun r => (0 <= r)%R) rs ->
  (0 <= foldr Rplus 0%R (zip_with Rmult ws rs))%R.
Proof.
  intros Hws. revert rs. induction Hws as [|w ws Hw _ IH]; intros rs Hrs;
    destruct Hrs as [|r rs Hr Hrs]; simpl; try lra.
  specialize (IH rs Hrs). nra.
Qed.

Lemma quotient_bounds (a b s t : R) :
  (0 < t)%R -> (a * t <= s <= b * t)%R -> (a <= s / t <= b)%R.
Proof.
  intros Ht [Ha Hb]. split.
  - apply (Rmult_le_reg_r t); [done|]. unfold Rdiv. rewrite Rmult_assoc, Rinv_l; lra.
  - apply (Rmult_le_reg_r t); [done|]. unfold Rdiv. rewrite Rmult_assoc, Rinv_l; lra.
Qed.



(** ** When the assembly fails *)

Lemma files_to_read_length data_dir start_file num_file (listing : list string) :
  length (files_to_read data_dir start_file num_file listing)
  = num_file `min` (length listing - start_file).
Proof.
  unfold files_to_read. rewrite length_take, length_drop, length_map.
  destruct (sort_file_list_sorted listing) as [_ Hp]. by rewrite Hp.
Qed.

(** X21.  With no file in the window (a directory of at most [start_file]
    files, or [num_file = 0]) [pool.map] returns an empty list and
    [np.concatenate] raises [ValueError]: no array is assembled. *)
Theorem assemble_empty_window read_decimate data_dir start_file num_file
    (listing : list string) :
  length listing <= start_file \/ num_file = 0 ->
  assemble read_decimate data_dir start_file num_file listing []
  = Some (Raise (ValueError "need at least one array to concatenate")).
Proof.
  intros Hwindow. unfold assemble.
  assert (files_to_read data_dir start_file num_file listing = []) as ->; [|done].
  apply length_zero_iff_nil. rewrite files_to_read_length. lia.
Qed.

(** X21 at a concrete input: two files, and the configured [start_file]. *)
Lemma assemble_empty_window_witness :
  assemble sample_read_decimate "d/" Config.start_file Config.num_file
    ["b.hdf5"; "a.hdf5"] []
  = Some (Raise (ValueError "need at least one array to concatenate")).
Proof. apply assemble_empty_window. left. simpl. unfold Config.start_file. lia. Defined.

Section PoolMapFailure.

Context {A B : Type} (f : A -> result B) (tasks : list A).

Lemma pool_fill_number_left st i :
  i < length tasks ->
  mr_number_left (pool_fill f tasks st i) = mr_number_left st - 1.
Proof.
  intros Hi. unfold pool_fill.
  destruct (lookup_lt_is_Some_2 tasks i Hi) as [x ->]. by destruct (f x).
Qed.

Lemma pool_fill_number_left_all st completion :
  Forall (fun i => i < length tasks) completion ->
  mr_number_left (foldl (pool_fill f tasks) st completion)
  = mr_number_left st - length completion.
Proof.
  intros Hvalid. revert st. induction Hvalid as [|i completion Hi _ IH]; intros st.
  - simpl. lia.
  - cbn [foldl length]. rewrite IH, pool_fill_number_left by done. lia.
Qed.

(** The first exception to arrive is the one that is kept. *)
Lemma pool_fill_error_kept st completion e :
  mr_error st = Some e ->
  mr_error (foldl (pool_fill f tasks) st completion) = Some e.
Proof.
  revert st. induction completion as [|i completion IH]; intros st He; [done|].
  cbn [foldl]. apply IH. unfold pool_fill.
  destruct (tasks !! i) as [x|]; [|done]. destruct (f x); simpl; [done|].
  by rewrite He.
Qed.

Lemma pool_fill_no_error st completion :
  mr_error st = None ->
  Forall (fun j => exists x, tasks !! j = Some x /\ raises (f x) = false) completion ->
  mr_error (foldl (pool_fill f tasks) st completion) = None.
Proof.
  intros He Hok. revert st He.
  induction Hok as [|j completion (x & Hx & Hfx) _ IH]; intros st He; [done|].
  cbn [foldl]. apply IH. unfold pool_fill. rewrite Hx.
  by destruct (f x).
Qed.

Lemma pool_map_first_failure before i after x e :
  before ++ i :: after ≡ₚ seq 0 (length tasks) ->
  tasks !! i = Some x -> f x = Raise e ->
  Forall (fun j => exists y, tasks !! j = Some y /\ raises (f y) = false) before ->
  pool_map f tasks (before ++ i :: after) = Some (Raise e).
Proof.
  intros Hperm Hx Hfx Hbefore. unfold pool_map.
  assert (length (before ++ i :: after) = length tasks) as Hlen
    by by rewrite Hperm, length_seq.
  rewrite pool_fill_number_left_all.
  2:{ rewrite Hperm. apply Forall_forall. intros j Hj%elem_of_seq. lia. }
  cbn [mr_number_left]. rewrite Hlen, Nat.sub_diag, decide_True by done.
  rewrite foldl_app. cbn [foldl].
  rewrite (pool_fill_error_kept _ _ e); [done|].
  unfold pool_fill at 1. rewrite Hx, Hfx. cbn [mr_error].
  by rewrite pool_fill_no_error.
Qed.

End PoolMapFailure.

(** X22.  When reading a file fails, the assembly fails with the exception
    of the failure that arrived first: [pool.map] raises it once all the
    tasks are done, and nothing is concatenated. *)
Theorem assemble_read_failure read_decimate data_dir start_file num_file
    (listing : list string) (before after : list nat) (i : nat) (file : string) (e : exn) :
  let files := files_to_read data_dir start_file num_file listing in
  before ++ i :: after ≡ₚ seq 0 (length files) ->
  files !! i = Some file -> read_decimate file = Raise e ->
  Forall (fun j => exists f, files !! j = Some f /\ raises (read_decimate f) = false)
         before ->
  assemble read_decimate data_dir start_file num_file listing (before ++ i :: after)
  = Some (Raise e).
Proof.
  intros files Hperm Hfile Hraise Hbefore. unfold assemble. fold files.
  by rewrite (pool_map_first_failure read_decimate files before i after file e).
Qed.

(** X22 at a concrete input: of two files the second to be listed cannot be
    read, and its task completes first. *)
Lemma assemble_read_failure_witness :
  assemble (fun file => if decide (file = "d/b.hdf5")
                        then Raise (FileNotFoundError file) else Ok [[Num 1]])
    "d/" 0 2 ["b.hdf5"; "a.hdf5"] ([] ++ 1 :: [0])
  = Some (Raise (FileNotFoundError "d/b.hdf5")).
Proof.
  apply (assemble_read_failure _ "d/" 0 2 ["b.hdf5"; "a.hdf5"] [] [0] 1 "d/b.hdf5").
  - apply perm_swap.
  - reflexivity.
  - reflexivity.
  - constructor.
Defined.

(** X23.  Files that are read but do not all hold the same number of
    channels cannot be put side by side: [np.concatenate] raises
    [ValueError]. *)
Theorem assemble_channel_mismatch read_decimate data_dir start_file num_file
    (listing : list string) (completion : list nat) (a : matrix) (rest : list matrix) :
  let files := files_to_read data_dir start_file num_file listing in
  completion ≡ₚ seq 0 (length files) ->
  Forall2 (fun file m => read_decimate file = Ok m) files (a :: rest) ->
  Exists (fun m => length m ≠ length a) rest ->
  assemble read_decimate data_dir start_file num_file listing completion
  = Some (Raise (ValueError
      "all the input array dimensions except for the concatenation axis must match exactly")).
Proof.
  intros files Hperm Hreads Hbad. unfold assemble. fold files.
  rewrite (pool_map_task_order read_decimate files (a :: rest) Hreads completion Hperm).
  simpl. rewrite decide_False; [done|].
  intros Hall. apply Exists_exists in Hbad as (m & Hin & Hm).
  rewrite Forall_forall in Hall. by apply Hm, Hall.
Qed.

(** X23 at a concrete input: a file of one channel and a file of two. *)
Lemma assemble_channel_mismatch_witness :
  assemble (fun file => if decide (file = "d/a.hdf5")
                        then Ok [[Num 1]] else Ok [[Num 2]; [Num 3]])
    "d/" 0 2 ["b.hdf5"; "a.hdf5"] [1; 0]
  = Some (Raise (ValueError
      "all the input array dimensions except for the concatenation axis must match exactly")).
Proof.
  apply (assemble_channel_mismatch _ "d/" 0 2 ["b.hdf5"; "a.hdf5"] [1; 0]
           [[Num 1]] [[[Num 2]; [Num 3]]]).
  - apply perm_swap.
  - by repeat constructor.
  - by repeat constructor.
Defined.

(** ** The bins of the loop do not disturb each other *)

Lemma slice_rows_agree addr P a b h h' :
  rows_agree addr P h h' -> slice_rows addr a b h = slice_rows addr a b h'.
Proof.
  intros (m & m' & Hm & Hm' & Hlen & _). unfold slice_rows.
  rewrite Hm, Hm'. simpl. by rewrite Hlen.
Qed.

Lemma read_view_agree addr a b h h' :
  rows_agree addr (fun r => a <= r < b) h h' ->
  read_view (slice_rows addr a b h) h = read_view (slice_rows addr a b h') h'.
Proof.
  intros Hagree. rewrite <- (slice_rows_agree _ _ _ _ _ _ Hagree).
  destruct Hagree as (m & m' & Hm & Hm' & Hlen & Hrows).
  unfold read_view, slice_rows. simpl. rewrite Hm, Hm'. simpl. f_equal.
  unfold rows_of. simpl. apply list_eq. intros i.
  destruct (decide (i < (a `max` b) `min` length m - a `min` length m)) as [Hi|Hi].
  - rewrite !lookup_take_lt, !lookup_drop by done. apply Hrows. lia.
  - by rewrite !lookup_take_ge by lia.
Qed.

Lemma write_view_agree (v : ndview) (rows : matrix) (h : heap) (m : matrix) :
  h !! view_base v = Some m -> length rows = length (rows_of v m) ->
  rows_agree (view_base v) (fun r => ~ (view_start v <= r < view_stop v))
             h (write_view v rows h).
Proof.
  intros Hm Hlen. exists m, (take (view_start v) m ++ rows ++ drop (view_start v + length rows) m).
  unfold write_view. rewrite lookup_alter_eq, Hm.
  unfold rows_of in Hlen. rewrite length_take, length_drop in Hlen.
  split_and!; [done..| |].
  - rewrite !length_app, length_take, length_drop. lia.
  - intros r Hr. destruct (decide (r < view_start v)) as [Hlt|Hge].
    + destruct (decide (r < length m)) as [Hrm|Hrm].
      * rewrite lookup_app_l by (rewrite length_take; lia).
        by rewrite lookup_take_lt.
      * rewrite (lookup_ge_None_2 m) by lia. symmetry. apply lookup_ge_None_2.
        rewrite !length_app, length_take, length_drop. lia.
    + destruct (decide (length m <= view_start v)) as [Hout|Hin].
      * assert (rows = []) as -> by (apply length_zero_iff_nil; lia).
        simpl. rewrite Nat.add_0_r. by rewrite take_drop.
      * rewrite lookup_app_r by (rewrite length_take; lia).
        rewrite length_take, Nat.min_l by lia.
        rewrite lookup_app_r by lia. rewrite lookup_drop. f_equal. lia.
Qed.

Lemma rows_agree_trans addr (P Q : nat -> Prop) h1 h2 h3 :
  rows_agree addr P h1 h2 -> rows_agree addr Q h2 h3 ->
  rows_agree addr (fun r => P r /\ Q r) h1 h3.
Proof.
  intros (m1 & m2 & H1 & H2 & Hlen & Hrows) (m2' & m3 & H2' & H3 & Hlen' & Hrows').
  rewrite H2 in H2'. injection H2' as <-.
  exists m1, m3. split_and!; [done|done|lia|].
  intros r [HP HQ]. by rewrite Hrows, Hrows'.
Qed.

Lemma rows_agree_weaken addr (P Q : nat -> Prop) h h' :
  (forall r, Q r -> P r) -> rows_agree addr P h h' -> rows_agree addr Q h h'.
Proof.
  intros HPQ (m & m' & Hm & Hm' & Hlen & Hrows). exists m, m'. split_and!; try done.
  intros r Hr. by apply Hrows, HPQ.
Qed.

Section PsdLoop.

Variable sgn_detrend : matrix -> result matrix.
Variable sgn_periodogram : matrix -> npfloat -> result (list npfloat * matrix).
Variables (amp_type : string) (new_fs : npfloat) (half_bin : nat).

#[local] Abbreviation bin_pass := (process_bin sgn_detrend sgn_periodogram amp_type new_fs half_bin).
#[local] Abbreviation bins_loop := (psd_loop sgn_detrend sgn_periodogram amp_type new_fs half_bin).

Lemma process_bin_result hour_data chan h :
  amp_type ≠ "strain" ->
  (bin_pass hour_data chan h).1
  = ('(H, xm, ym) ← (ppsd sgn_detrend sgn_periodogram
                       (slice_rows hour_data (chan - half_bin) (chan + half_bin) h)
                       new_fs (Num 2e-4) (Num 1e2) h).1;
     '(xm, mn, vr) ← psd_stats H xm ym;
     Ok (H, xm, ym, mn, vr)).
Proof.
  intros Hamp. unfold process_bin. rewrite decide_False by done.
  by destruct (ppsd _ _ _ _ _ _ _).
Qed.

(** A pass gives the same statistics on two heaps that agree on the rows
    of its bin. *)
Lemma process_bin_agree hour_data chan h h' :
  amp_type ≠ "strain" ->
  rows_agree hour_data (in_bin half_bin chan) h h' ->
  (bin_pass hour_data chan h).1 = (bin_pass hour_data chan h').1.
Proof.
  intros Hamp Hagree. rewrite !process_bin_result by done.
  pose proof (read_view_agree _ _ _ _ _ Hagree) as Hread.
  destruct Hagree as (m & m' & Hm & Hm' & _).
  destruct (read_view (slice_rows hour_data (chan - half_bin) (chan + half_bin) h) h)
    as [d|] eqn:Hd.
  - by rewrite (ppsd_result _ _ _ _ _ _ _ _ Hd), (ppsd_result _ _ _ _ _ _ _ d).
  - unfold read_view, slice_rows in Hd. simpl in Hd. by rewrite Hm in Hd.
Qed.

(** A pass leaves the rows outside its bin as they were. *)
Lemma process_bin_frame hour_data chan h m :
  amp_type ≠ "strain" -> h !! hour_data = Some m ->
  rows_agree hour_data (fun r => ~ in_bin half_bin chan r)
             h (bin_pass hour_data chan h).2.
Proof.
  intros Hamp Hm. rewrite process_bin_heap by done.
  set (trs := slice_rows hour_data (chan - half_bin) (chan + half_bin) h).
  assert (read_view trs h = Some (rows_of trs m)) as Hread.
  { unfold read_view, trs, slice_rows. simpl. by rewrite Hm. }
  destruct (ppsd_demeans_heap sgn_detrend sgn_periodogram trs new_fs
              (Num 2e-4) (Num 1e2) h _ Hread) as [-> _].
  eapply rows_agree_weaken; [|apply (write_view_agree trs _ h m)].
  - intros r Hr. simpl in *. unfold in_bin in Hr. unfold trs, slice_rows. simpl.
    rewrite Hm. simpl. lia.
  - unfold trs, slice_rows. simpl. by rewrite Hm.
  - apply demean_length.
Qed.

Lemma mapM_result_cons {A B} (f : A -> result B) (x : A) (l : list A) :
  mapM f (x :: l) = (y ← f x; k ← mapM f l; Ok (y :: k)).
Proof. done. Qed.

Lemma psd_loop_agree hour_data chans h h' :
  amp_type ≠ "strain" ->
  (forall i j c c', i < j -> chans !! i = Some c -> chans !! j = Some c' ->
     forall r, in_bin half_bin c r -> ~ in_bin half_bin c' r) ->
  rows_agree hour_data (fun r => exists c, c ∈ chans /\ in_bin half_bin c r) h h' ->
  (bins_loop hour_data chans h').1 = mapM (fun chan => (bin_pass hour_data chan h).1) chans.
Proof.
  intros Hamp. revert h'. induction chans as [|chan rest IH]; intros h' Hdisj Hagree.
  { done. }
  rewrite mapM_result_cons. cbn [psd_loop].
  assert (rows_agree hour_data (in_bin half_bin chan) h h') as Hchan.
  { eapply rows_agree_weaken; [|exact Hagree]. intros r Hr. exists chan. split; [by left|done]. }
  rewrite (process_bin_agree _ _ _ _ Hamp Hchan).
  assert (exists m', h' !! hour_data = Some m') as [m' Hm'].
  { destruct Hagree as (m & m' & _ & Hm' & _). by exists m'. }
  pose proof (process_bin_frame hour_data chan h' m' Hamp Hm') as Hframe.
  destruct (bin_pass hour_data chan h') as [[out|e] h''] eqn:Hpass; [|done].
  simpl in Hframe. simpl.
  rewrite <- (IH h'').
  - by destruct (bins_loop hour_data rest h'').
  - intros i j c c' Hij Hc Hc'. by apply (Hdisj (S i) (S j)); [lia|..].
  - eapply rows_agree_weaken; [|eapply rows_agree_trans; [exact Hagree|exact Hframe]].
    intros r (c & Hin & Hr). split.
    + exists c. split; [by right|done].
    + apply list_elem_of_lookup in Hin as [j Hj].
      intros Hchan'. by apply (Hdisj 0 (S j) chan c ltac:(lia) eq_refl Hj r).
Qed.


End PsdLoop.


(** ** The bin centres of the loop *)

Lemma arange_count (start stop step k : nat) :
  0 < step -> k < (stop - start + (step - 1)) / step <-> start + k * step < stop.
Proof.
  intros Hstep. set (d := stop - start). split.
  - intros Hk.
    pose proof (Nat.Div0.mul_div_le (d + (step - 1)) step) as Hle.
    assert (step * (k + 1) <= step * ((d + (step - 1)) / step)) as Hmul
      by (apply Nat.mul_le_mono_l; lia).
    nia.
  - intros Hk. apply (Nat.lt_le_trans _ (k + 1)); [lia|].
    apply Nat.div_le_lower_bound; [lia|]. nia.
Qed.

Lemma arange_reversed_lookup (start stop step i c : nat) :
  arange_reversed start stop step !! i = Some c ->
  exists k, c = start + k * step /\
            k + i + 1 = (stop - start + (step - 1)) / step.
Proof.
  unfold arange_reversed. set (n := (stop - start + (step - 1)) / step). intros Hc.
  assert (i < n) as Hi.
  { apply lookup_lt_Some in Hc. by rewrite length_reverse, length_map, length_seq in Hc. }
  rewrite reverse_lookup in Hc by (by rewrite length_map, length_seq).
  rewrite length_map, length_seq, list_lookup_fmap, lookup_seq_lt in Hc by lia.
  injection Hc as <-. exists (n - S i). split; [done|lia].
Qed.

Lemma arange_reversed_elem (start stop step c : nat) :
  0 < step ->
  c ∈ arange_reversed start stop step <-> c < stop /\ exists k, c = start + k * step.
Proof.
  intros Hstep. unfold arange_reversed. rewrite elem_of_reverse, list_elem_of_fmap. split.
  - intros (k & -> & [_ Hk]%elem_of_seq). split; [|by exists k].
    by apply arange_count.
  - intros (Hc & k & ->). exists k. split; [done|]. apply elem_of_seq.
    split; [lia|]. by apply arange_count.
Qed.

(** Later centres are lower, by the step at least. *)
Lemma arange_reversed_spaced (start stop step i j c c' : nat) :
  i < j ->
  arange_reversed start stop step !! i = Some c ->
  arange_reversed start stop step !! j = Some c' ->
  c' + step <= c.
Proof.
  intros Hij (k & -> & Hk)%arange_reversed_lookup (k' & -> & Hk')%arange_reversed_lookup.
  assert (k' + 1 <= k) as Hkk by lia.
  assert ((k' + 1) * step <= k * step) by (by apply Nat.mul_le_mono_r). lia.
Qed.

(** X25.  The bin centres [np.arange(half_bin+1, n, channel_interval)[::-1]]
    of the loop, for [channel_interval > 0]: the channels below [n] that
    are [half_bin + 1] plus a multiple of the interval, from the highest to
    the lowest.  The lowest bin starts at channel 1, and with
    [2 * half_bin <= channel_interval] the bins do not overlap. *)
Theorem bin_centres_spaced (half_bin n channel_interval : nat) :
  0 < channel_interval -> 2 * half_bin <= channel_interval ->
  let chans := arange_reversed (half_bin + 1) n channel_interval in
  (forall c, c ∈ chans <-> c < n /\ exists k, c = half_bin + 1 + k * channel_interval) /\
  (forall c, c ∈ chans -> 1 <= c - half_bin) /\
  (forall i j c c', i < j -> chans !! i = Some c -> chans !! j = Some c' ->
     c' + half_bin <= c - half_bin).
Proof.
  intros Hstep Hbin chans. split_and!.
  - intros c. by apply arange_reversed_elem.
  - intros c (_ & k & ->)%arange_reversed_elem; [lia|done].
  - intros i j c c' Hij Hc Hc'.
    pose proof (arange_reversed_spaced _ _ _ _ _ _ _ Hij Hc Hc').
    apply arange_reversed_lookup in Hc' as (k' & -> & _). lia.
Qed.

(** X25 at a concrete input: the run as configured, with bins of 200
    channels every 2000 channels up to channel 9000. *)
Lemma bin_centres_spaced_witness :
  (forall c, c ∈ ch_list <->
             c < Config.end_ch - Config.start_ch /\
             exists k, c = Config.half_bin + 1 + k * Config.channel_interval) /\
  (forall c, c ∈ ch_list -> 1 <= c - Config.half_bin) /\
  (forall i j c c', i < j -> ch_list !! i = Some c -> ch_list !! j = Some c' ->
     c' + Config.half_bin <= c - Config.half_bin).
Proof.
  apply (bin_centres_spaced Config.half_bin (Config.end_ch - Config.start_ch)
           Config.channel_interval).
  - unfold Config.channel_interval. lia.
  - apply Nat.leb_le. vm_compute. reflexivity.
Defined.



(** X27 at a concrete input: the sample heap, with [amp_type = 'strain']. *)
Lemma process_bin_strain_keeps_hour_data_witness :
  (process_bin sample_detrend sample_periodogram "strain" (Num 1) 1 0 1 sample_heap).2 !! 0
  = sample_heap !! 0.
Proof.
  apply process_bin_strain_keeps_hour_data.
  - reflexivity.
  - unfold sample_heap. rewrite lookup_singleton_eq. by eexists.
Defined.
